(** * The vision analysis adapter of want_to_have_a_pie

    A shallow embedding of [tools/vision_tool.py]: the image preprocessor
    [_encode_image], the credential lookup [_get_openai_client] and the
    adapter entry point [_run].

    The Python code talks to the file system, the process environment, the
    imaging library and the model API.  Those collaborators are gathered in
    a record [World]; the code itself is written in a small monad that reads
    the world, logs every effect it performs and may raise an exception.

    Python floats are IEEE 754 binary64 numbers; they are embedded with the
    reference semantics of [SpecFloat] at precision 53 and maximal exponent
    1024.

    Two conventions hold throughout.  The exceptions the collaborators raise
    are instances of Python's [Exception], which is what the handlers of the
    code catch.  Writing a line to the console succeeds; the line is kept in
    the log. *)

From Stdlib Require Import ZArith NArith List String Ascii Bool Lia.
From Stdlib Require Import Reals Lra Psatz.
From Stdlib Require Import Floats.SpecFloat.
From Stdlib Require Strings.Byte.
Import ListNotations.

Local Open Scope Z_scope.
Local Open Scope string_scope.

(** ** Exceptions and results *)

(** The exception classes the code distinguishes.  Every member derives
    from Python's [Exception]; the two classes of the model API client are
    the ones [_run] has a handler of their own for. *)
Inductive exn_class : Type :=
| AuthenticationError
| RateLimitError
| ValueError
| OverflowError
| ZeroDivisionError
| IndexError
| OSError
| PlainException
| OtherException (name : string).

(** An exception value: its class and the text [str(e)] yields. *)
Record exn : Type := mkExn { exn_cls : exn_class; exn_str : string }.

Inductive result (A : Type) : Type :=
| Ok (a : A)
| Raise (e : exn).
Arguments Ok {A} a.
Arguments Raise {A} e.

(** ** Data *)

Module PIL.
(** What the code observes of a PIL image: its mode, its size
    (width, height) and the pixel data, which stays opaque. *)
Record Image : Type := mkImage {
  mode : string;
  size : Z * Z;
  raster : list Byte.byte
}.

Inductive Resampling : Type := NEAREST | BILINEAR | BICUBIC | LANCZOS.
End PIL.
Import PIL.

Inductive content_part : Type :=
| TextPart (text : string)
| ImageUrlPart (url : string).

Record message : Type := mkMessage {
  role : string;
  content : list content_part
}.

Record Request : Type := mkRequest {
  model : string;
  messages : list message;
  max_tokens : Z;
  temperature : spec_float
}.

Record Choice : Type := mkChoice { message_content : option string }.

Record Usage : Type := mkUsage { total_tokens : Z }.

Record Response : Type := mkResponse {
  choices : list Choice;
  usage : option Usage
}.

Record Client : Type := OpenAI { api_key : string }.

(** ** The world and the effects *)

(** The lines [_run] prints, with the values they interpolate. *)
Inductive console_line : Type :=
| Analyzing (image_path : string)
| FileSize (bytes : Z)
| Encoded (characters : nat)
| Sending
| Received
| TokenUsage (total : Z).

Inductive event : Type :=
| EvExists (path : string)
| EvGetsize (path : string)
| EvGetenv (name : string)
| EvImageOpen (path : string)
| EvConvert (img : Image) (to_mode : string)
| EvResize (img : Image) (new_size : Z * Z) (filter : Resampling)
| EvSave (img : Image) (format : string) (quality : Z)
| EvCreate (client : Client) (req : Request)
| EvPrint (line : console_line).

(** The collaborators.  The imaging operations return the pixel data of
    their result or raise; the mode and size of a converted or resized image
    are the requested ones. *)
Record World : Type := mkWorld {
  os_path_exists : string -> bool;
  os_path_getsize : string -> result Z;
  os_getenv : string -> option string;
  Image_open : string -> result Image;
  Image_convert : Image -> string -> result (list Byte.byte);
  Image_resize : Image -> Z * Z -> Resampling -> result (list Byte.byte);
  Image_save : Image -> string -> Z -> result (list Byte.byte);
  chat_completions_create : Client -> Request -> result Response
}.

(** A computation reads the world and yields the log of its effects, in
    order, with either a value or a raised exception. *)
Definition M (A : Type) : Type := World -> list event * result A.

Definition ret {A} (a : A) : M A := fun _ => ([], Ok a).

Definition raise {A} (e : exn) : M A := fun _ => ([], Raise e).

Definition bind {A B} (m : M A) (f : A -> M B) : M B :=
  fun w =>
    match m w with
    | (t1, Ok a) => let (t2, r) := f a w in (app t1 t2, r)
    | (t1, Raise e) => (t1, Raise e)
    end.

(** [try: ... except Exception as e: handler e]. *)
Definition try_except {A} (body : M A) (handler : exn -> M A) : M A :=
  fun w =>
    match body w with
    | (t1, Ok a) => (t1, Ok a)
    | (t1, Raise e) => let (t2, r) := handler e w in (app t1 t2, r)
    end.

Definition perform {A} (ev : event) (f : World -> result A) : M A :=
  fun w => ([ev], f w).

Definition lift {A} (r : result A) : M A := fun _ => ([], r).

Declare Scope monad_scope.
Delimit Scope monad_scope with monad.
Notation "x <- c1 ;; c2" := (bind c1 (fun x => c2))
  (at level 100, c1 at next level, right associativity) : monad_scope.
Notation "c1 ;;; c2" := (bind c1 (fun _ => c2))
  (at level 100, right associativity) : monad_scope.
Local Open Scope monad_scope.

Definition trace_of {A} (r : list event * result A) : list event := fst r.
Definition outcome {A} (r : list event * result A) : result A := snd r.

Definition print (line : console_line) : M unit :=
  perform (EvPrint line) (fun _ => Ok tt).

(** ** Python values *)

(** Truth value of an optional string: [None] and the empty string are
    false. *)
Definition truthy (s : option string) : bool :=
  match s with
  | Some EmptyString => false
  | Some _ => true
  | None => false
  end.

(** [a or b] on an optional string. *)
Definition or_else (s : option string) (d : string) : string :=
  match s with
  | Some EmptyString => d
  | Some v => v
  | None => d
  end.

Definition string_in (s : string) (l : list string) : bool :=
  existsb (String.eqb s) l.

(** *** Floats *)

Definition prec : Z := 53.
Definition emax : Z := 1024.

(** [float(n)] for an integer: the nearest binary64 number, or
    [OverflowError]. *)
Definition float_of_int (n : Z) : result spec_float :=
  match binary_normalize prec emax n 0 false with
  | S754_infinity _ => Raise (mkExn OverflowError "int too large to convert to float")
  | f => Ok f
  end.

(** [a / b] on integers: the correctly rounded quotient. *)
Definition int_truediv (a b : Z) : result spec_float :=
  match a, b with
  | _, Z0 => Raise (mkExn ZeroDivisionError "division by zero")
  | Z0, _ => Ok (S754_zero false)
  | _, _ =>
      let '(mz, ez, lz) := SFdiv_core_binary prec emax (Z.abs a) 0 (Z.abs b) 0 in
      match binary_round_aux prec emax (xorb (Z.ltb a 0) (Z.ltb b 0)) mz ez lz with
      | S754_infinity _ =>
          Raise (mkExn OverflowError "integer division result too large for a float")
      | f => Ok f
      end
  end.

(** [n * x] for an integer [n] and a float [x]. *)
Definition int_mul_float (n : Z) (x : spec_float) : result spec_float :=
  match float_of_int n with
  | Ok f => Ok (SFmul prec emax f x)
  | Raise e => Raise e
  end.

(** [int(x)]: truncation toward zero. *)
Definition int_of_float (x : spec_float) : result Z :=
  match x with
  | S754_zero _ => Ok 0
  | S754_finite s m e =>
      let a := match e with
               | Zneg p => Z.shiftr (Zpos m) (Zpos p)
               | _ => Z.shiftl (Zpos m) e
               end in
      Ok (if s then - a else a)
  | S754_infinity _ =>
      Raise (mkExn OverflowError "cannot convert float infinity to integer")
  | S754_nan => Raise (mkExn ValueError "cannot convert float NaN to integer")
  end.

(** *** Base64 *)

Definition b64_alphabet : string :=
  "ABCDEFGHIJKLMNOPQRSTUVWXYZabcdefghijklmnopqrstuvwxyz0123456789+/".

Definition b64_char (n : N) : ascii :=
  match String.get (N.to_nat n) b64_alphabet with
  | Some c => c
  | None => "="%char
  end.

Fixpoint b64encode (l : list Byte.byte) : string :=
  match l with
  | [] => ""
  | a :: l1 =>
      let x := Byte.to_N a in
      match l1 with
      | [] =>
          String (b64_char (x / 4))
            (String (b64_char ((x mod 4) * 16)) "==")
      | b :: l2 =>
          let y := Byte.to_N b in
          match l2 with
          | [] =>
              String (b64_char (x / 4))
                (String (b64_char ((x mod 4) * 16 + y / 16))
                   (String (b64_char ((y mod 16) * 4)) "="))
          | c :: l3 =>
              let z := Byte.to_N c in
              String (b64_char (x / 4))
                (String (b64_char ((x mod 4) * 16 + y / 16))
                   (String (b64_char ((y mod 16) * 4 + z / 64))
                      (String (b64_char (z mod 64)) (b64encode l3))))
          end
      end
  end%N.

(** ** The adapter *)

Module VisionToolInput.
(** The input schema: [image_path] is required, [prompt] has a default
    of the schema's own. *)
Definition prompt_default : string :=
  "Analyze this image and identify all food items visible. For each food item, provide a descriptive name and estimate its weight in grams. Format your response as a list with items, weights, and confidence levels.".

Record t : Type := mk { image_path : string; prompt : string }.

Definition make (image_path : string) (prompt : option string) : t :=
  mk image_path
     (match prompt with Some p => p | None => prompt_default end).
End VisionToolInput.

Module VisionTool.

Definition name : string := "Vision Food Analyzer".

Definition missing_key_message : string :=
  "OPENAI_API_KEY environment variable is required".

(** [_get_openai_client]: the key is read from the environment at call
    time; [None] and the empty string are both refused. *)
Definition _get_openai_client : M Client :=
  api_key <- perform (EvGetenv "OPENAI_API_KEY")
               (fun w => Ok (os_getenv w "OPENAI_API_KEY"));;
  match api_key with
  | Some k =>
      if negb (truthy api_key)
      then raise (mkExn ValueError missing_key_message)
      else ret (OpenAI k)
  | None => raise (mkExn ValueError missing_key_message)
  end.

Definition max_size : Z := 2048.

(** [img.convert(m)] and [img.resize(sz, filter)]. *)
Definition convert (img : Image) (m : string) : M Image :=
  px <- perform (EvConvert img m) (fun w => Image_convert w img m);;
  ret (mkImage m (size img) px).

Definition resize (img : Image) (sz : Z * Z) (filter : Resampling) : M Image :=
  px <- perform (EvResize img sz filter) (fun w => Image_resize w img sz filter);;
  ret (mkImage (mode img) sz px).

(** Lines 48-49: the ratio and the size the image is resized to. *)
Definition new_size (sz : Z * Z) : result (Z * Z) :=
  match int_truediv max_size (Z.max (fst sz) (snd sz)) with
  | Raise e => Raise e
  | Ok ratio =>
      match int_mul_float (fst sz) ratio with
      | Raise e => Raise e
      | Ok fw =>
          match int_of_float fw with
          | Raise e => Raise e
          | Ok w =>
              match int_mul_float (snd sz) ratio with
              | Raise e => Raise e
              | Ok fh =>
                  match int_of_float fh with
                  | Raise e => Raise e
                  | Ok h => Ok (w, h)
                  end
              end
          end
      end
  end.

Definition encode_failed (e : exn) : exn :=
  mkExn PlainException ("Failed to encode image: " ++ exn_str e).

(** The body of the [try] of [_encode_image]. *)
Definition encode_image_body (image_path : string) : M string :=
  img <- perform (EvImageOpen image_path) (fun w => Image_open w image_path);;
  img <- (if string_in (mode img) ["RGBA"; "P"]
          then convert img "RGB" else ret img);;
  img <- (if Z.ltb max_size (Z.max (fst (size img)) (snd (size img)))
          then sz <- lift (new_size (size img));;
               resize img sz LANCZOS
          else ret img);;
  img_byte_arr <- perform (EvSave img "JPEG" 85)
                    (fun w => Image_save w img "JPEG" 85);;
  ret (b64encode img_byte_arr).

Definition _encode_image (image_path : string) : M string :=
  try_except (encode_image_body image_path)
             (fun e => raise (encode_failed e)).

Definition default_prompt : string :=
  "Analyze this image and identify all food items visible. "
  ++ "For each food item, provide:" ++ String "010" ""
  ++ "- Descriptive name (suitable for recipe searches)" ++ String "010" ""
  ++ "- Estimated weight in grams" ++ String "010" ""
  ++ "- Confidence level (percentage)" ++ String "010" (String "010" "")
  ++ "Format as a list like:" ++ String "010" ""
  ++ "- watermelon chunks: 350g (95% confidence)" ++ String "010" ""
  ++ "- banana: 120g (90% confidence)" ++ String "010" (String "010" "")
  ++ "Only include items where confidence is 90% or higher.".

Definition not_found_message (image_path : string) : string :=
  "Error: Image file not found at " ++ image_path.

Definition invalid_key_message : string :=
  "Error: Invalid OpenAI API key. Please check your OPENAI_API_KEY environment variable.".

Definition rate_limit_message : string :=
  "Error: OpenAI API rate limit exceeded. Please try again later.".

Definition other_error_message (e : exn) : string :=
  "Error analyzing image: " ++ exn_str e.

Definition no_response : string := "No response received".

(** The literal [0.1]. *)
Definition temperature_0_1 : spec_float :=
  S754_finite false 7205759403792794 (-56).

Definition vision_request (prompt base64_image : string) : Request :=
  mkRequest "gpt-4o-mini"
    [ mkMessage "user"
        [ TextPart prompt;
          ImageUrlPart ("data:image/jpeg;base64," ++ base64_image) ] ]
    1000
    temperature_0_1.

(** [response.choices[0]]. *)
Definition first_choice (r : Response) : result Choice :=
  match choices r with
  | c :: _ => Ok c
  | [] => Raise (mkExn IndexError "list index out of range")
  end.

(** The body of the [try] of [_run]. *)
Definition run_body (image_path : string) (prompt : option string) : M string :=
  found <- perform (EvExists image_path)
             (fun w => Ok (os_path_exists w image_path));;
  if negb found then ret (not_found_message image_path)
  else
    let prompt := if truthy prompt then or_else prompt default_prompt
                  else default_prompt in
    print (Analyzing image_path);;;
    file_size <- perform (EvGetsize image_path)
                   (fun w => os_path_getsize w image_path);;
    print (FileSize file_size);;;
    base64_image <- _encode_image image_path;;
    print (Encoded (String.length base64_image));;;
    let request := vision_request prompt base64_image in
    print Sending;;;
    client <- _get_openai_client;;
    response <- perform (EvCreate client request)
                  (fun w => chat_completions_create w client request);;
    choice <- lift (first_choice response);;
    let result := or_else (message_content choice) no_response in
    print Received;;;
    match usage response with
    | Some u => print (TokenUsage (total_tokens u))
    | None => ret tt
    end;;;
    ret result.

(** The three [except] clauses of [_run], tried in order. *)
Definition run_handler (e : exn) : M string :=
  match exn_cls e with
  | AuthenticationError => ret invalid_key_message
  | RateLimitError => ret rate_limit_message
  | _ => ret (other_error_message e)
  end.

Definition _run (image_path : string) (prompt : option string) : M string :=
  try_except (run_body image_path prompt) run_handler.

End VisionTool.
Import VisionTool.

(** ** The crew module *)

(** The statements [crew.py] runs when it is imported: two assignments to
    the process environment, then the construction of the scraping tool
    from the environment they leave. *)
Module Crew.





End Crew.

(** ** A concrete world to run the code in *)

Module Demo.
Definition pixels : list Byte.byte := [Byte.x4d; Byte.x61; Byte.x6e].

Definition photo (mode : string) (size : Z * Z) : Image :=
  mkImage mode size pixels.

Definition answer : Response :=
  mkResponse [mkChoice (Some "- banana: 120g (90% confidence)")]
             (Some (mkUsage 321)).

Definition no_such_file : exn := mkExn OSError "No such file or directory".

(** A world with one file, [plate.jpg]: what opening it as an image
    yields, the API key of the environment and the answer of the model
    API are left to choose. *)
Definition world (img : result Image) (key : option string)
           (api : result Response) : World :=
  mkWorld
    (fun p => String.eqb p "plate.jpg")
    (fun p => if String.eqb p "plate.jpg" then Ok 4242 else Raise no_such_file)
    (fun n => if String.eqb n "OPENAI_API_KEY" then key else None)
    (fun p => if String.eqb p "plate.jpg" then img else Raise no_such_file)
    (fun img _ => Ok (raster img))
    (fun img _ _ => Ok (raster img))
    (fun _ _ _ => Ok pixels)
    (fun _ _ => api).
End Demo.

(** ** Text *)

Fixpoint starts_with (sub s : string) : bool :=
  match sub, s with
  | EmptyString, _ => true
  | String a sub', String b s' => Ascii.eqb a b && starts_with sub' s'
  | String _ _, EmptyString => false
  end.

(** [sub in s]. *)
Fixpoint contains (sub s : string) : bool :=
  starts_with sub s ||
  match s with
  | EmptyString => false
  | String _ s' => contains sub s'
  end.


(** ** Notions the statements use *)

(** The effects of [_run] before the image is encoded. *)
Definition run_prologue (p : string) (n : Z) : list event :=
  [EvExists p; EvPrint (Analyzing p); EvGetsize p; EvPrint (FileSize n)].

(** The prompt sent to the model. *)
Definition effective_prompt (prompt : option string) : string :=
  if truthy prompt then or_else prompt default_prompt else default_prompt.

(** The text [_run] returns when the key is missing. *)
Definition missing_key_text : string :=
  "Error analyzing image: OPENAI_API_KEY environment variable is required".

(** [x * ratio] truncated, for one dimension [x]. *)
Definition scale (x : Z) (ratio : spec_float) : result Z :=
  match int_mul_float x ratio with
  | Ok f => int_of_float f
  | Raise e => Raise e
  end.

(** The mode of the image after line 43. *)
Definition mode_after_convert (img : Image) : string :=
  if string_in (mode img) ["RGBA"; "P"] then "RGB" else mode img.

(** Every effect of [_encode_image] on an image that opens: the open
    itself, the conversion, the resize and the JPEG encoding, with the
    images they act on. *)
Inductive encode_effect (p : string) (img : Image) : event -> Prop :=
| eff_open : encode_effect p img (EvImageOpen p)
| eff_convert :
    string_in (mode img) ["RGBA"; "P"] = true ->
    encode_effect p img (EvConvert img "RGB")
| eff_resize (img1 : Image) (sz : Z * Z) :
    mode img1 = mode_after_convert img -> size img1 = size img ->
    max_size < Z.max (fst (size img)) (snd (size img)) ->
    new_size (size img) = Ok sz ->
    encode_effect p img (EvResize img1 sz LANCZOS)
| eff_save (img2 : Image) :
    mode img2 = mode_after_convert img ->
    (if Z.ltb max_size (Z.max (fst (size img)) (snd (size img)))
     then new_size (size img) = Ok (size img2)
     else size img2 = size img) ->
    encode_effect p img (EvSave img2 "JPEG" 85).

(** The modes with three colour channels. *)
Definition three_channel (m : string) : bool :=
  string_in m ["RGB"; "YCbCr"; "LAB"; "HSV"].


(** Kinds of effects. *)
Definition is_create (ev : event) : bool :=
  match ev with EvCreate _ _ => true | _ => false end.

Definition is_getenv (ev : event) : bool :=
  match ev with EvGetenv _ => true | _ => false end.

Definition is_open (ev : event) : bool :=
  match ev with EvImageOpen _ => true | _ => false end.

Definition is_save (ev : event) : bool :=
  match ev with EvSave _ _ _ => true | _ => false end.

Definition is_imaging (ev : event) : bool :=
  match ev with
  | EvImageOpen _ | EvConvert _ _ | EvResize _ _ _ | EvSave _ _ _ => true
  | _ => false
  end.

Definition is_received (ev : event) : bool :=
  match ev with EvPrint Received => true | _ => false end.

(** How often an effect of some kind occurs in a log. *)
Definition occurrences (kind : event -> bool) (t : list event) : nat :=
  List.length (filter kind t).

(** The line [_run] prints for the token usage, if the response has one. *)
Definition usage_line (r : Response) : list event :=
  match usage r with
  | Some u => [EvPrint (TokenUsage (total_tokens u))]
  | None => []
  end.

(** The effects of [_run] between the encoding and the model call. *)
Definition run_request_effects (b64 : string) : list event :=
  [EvPrint (Encoded (String.length b64)); EvPrint Sending;
   EvGetenv "OPENAI_API_KEY"].

(** The text the handlers of [_run] return for an exception. *)
Definition handler_text (e : exn) : string :=
  match exn_cls e with
  | AuthenticationError => invalid_key_message
  | RateLimitError => rate_limit_message
  | _ => other_error_message e
  end.

(** The text [_run] returns for an outcome of its body. *)
Definition text_of (r : result string) : string :=
  match r with
  | Ok s => s
  | Raise e => handler_text e
  end.

(** The ways the body of [_run] can go, with the log and the outcome of
    each. *)
Inductive run_case (w : World) (p : string) (prompt : option string) :
  list event * result string -> Prop :=
| case_missing :
    os_path_exists w p = false ->
    run_case w p prompt ([EvExists p], Ok (not_found_message p))
| case_getsize (e : exn) :
    os_path_exists w p = true ->
    os_path_getsize w p = Raise e ->
    run_case w p prompt
      ([EvExists p; EvPrint (Analyzing p); EvGetsize p], Raise e)
| case_encode (n : Z) (t : list event) (e : exn) :
    os_path_exists w p = true ->
    os_path_getsize w p = Ok n ->
    _encode_image p w = (t, Raise e) ->
    run_case w p prompt (app (run_prologue p n) t, Raise e)
| case_no_key (n : Z) (t : list event) (b64 : string) :
    os_path_exists w p = true ->
    os_path_getsize w p = Ok n ->
    _encode_image p w = (t, Ok b64) ->
    truthy (os_getenv w "OPENAI_API_KEY") = false ->
    run_case w p prompt
      (app (run_prologue p n) (app t (run_request_effects b64)),
       Raise (mkExn ValueError missing_key_message))
| case_call (n : Z) (t : list event) (b64 k : string) (e : exn) :
    os_path_exists w p = true ->
    os_path_getsize w p = Ok n ->
    _encode_image p w = (t, Ok b64) ->
    os_getenv w "OPENAI_API_KEY" = Some k -> truthy (Some k) = true ->
    chat_completions_create w (OpenAI k)
      (vision_request (effective_prompt prompt) b64) = Raise e ->
    run_case w p prompt
      (app (run_prologue p n)
           (app t (app (run_request_effects b64)
                       [EvCreate (OpenAI k)
                          (vision_request (effective_prompt prompt) b64)])),
       Raise e)
| case_no_choice (n : Z) (t : list event) (b64 k : string) (r : Response) :
    os_path_exists w p = true ->
    os_path_getsize w p = Ok n ->
    _encode_image p w = (t, Ok b64) ->
    os_getenv w "OPENAI_API_KEY" = Some k -> truthy (Some k) = true ->
    chat_completions_create w (OpenAI k)
      (vision_request (effective_prompt prompt) b64) = Ok r ->
    choices r = [] ->
    run_case w p prompt
      (app (run_prologue p n)
           (app t (app (run_request_effects b64)
                       [EvCreate (OpenAI k)
                          (vision_request (effective_prompt prompt) b64)])),
       Raise (mkExn IndexError "list index out of range"))
| case_answer (n : Z) (t : list event) (b64 k : string) (r : Response)
              (c : Choice) (rest : list Choice) :
    os_path_exists w p = true ->
    os_path_getsize w p = Ok n ->
    _encode_image p w = (t, Ok b64) ->
    os_getenv w "OPENAI_API_KEY" = Some k -> truthy (Some k) = true ->
    chat_completions_create w (OpenAI k)
      (vision_request (effective_prompt prompt) b64) = Ok r ->
    choices r = c :: rest ->
    run_case w p prompt
      (app (run_prologue p n)
           (app t (app (run_request_effects b64)
                       (EvCreate (OpenAI k)
                          (vision_request (effective_prompt prompt) b64)
                        :: EvPrint Received :: usage_line r))),
       Ok (or_else (message_content c) no_response)).

(** The inverse of [b64encode], used to show that the encoding loses
    nothing: the position of a character in the alphabet and the bytes of a
    text, four characters at a time. *)
Fixpoint index_of (c : ascii) (s : string) : option N :=
  match s with
  | EmptyString => None
  | String d s' =>
      if Ascii.eqb c d then Some 0%N else option_map N.succ (index_of c s')
  end.

Definition b64_index (c : ascii) : option N := index_of c b64_alphabet.

Definition bytes_of (ns : list N) : option (list Byte.byte) :=
  fold_right
    (fun n acc =>
       match Byte.of_N n, acc with
       | Some b, Some l => Some (b :: l)
       | _, _ => None
       end)
    (Some []) ns.

Fixpoint b64decode (s : string) : option (list Byte.byte) :=
  match s with
  | EmptyString => Some []
  | String c1 (String c2 (String c3 (String c4 rest))) =>
      match b64_index c1, b64_index c2 with
      | Some s1, Some s2 =>
          if Ascii.eqb c3 "=" then bytes_of [s1 * 4 + s2 / 16]%N
          else
            match b64_index c3 with
            | Some s3 =>
                if Ascii.eqb c4 "="
                then bytes_of [s1 * 4 + s2 / 16; (s2 mod 16) * 16 + s3 / 4]%N
                else
                  match b64_index c4, b64decode rest with
                  | Some s4, Some l =>
                      match bytes_of [s1 * 4 + s2 / 16;
                                      (s2 mod 16) * 16 + s3 / 4;
                                      (s3 mod 4) * 64 + s4]%N with
                      | Some g => Some (app g l)
                      | None => None
                      end
                  | _, _ => None
                  end
            | None => None
            end
      | _, _ => None
      end
  | _ => None
  end.

(** A check of a property of the numbers below [k]. *)
Definition all_below (k : nat) (f : N -> bool) : bool :=
  forallb f (map N.of_nat (seq 0 k)).

(** *** Binary64 numbers as reals *)

Module Binary64.

Local Close Scope string_scope.

(** After [k] shifts of the integer [M], the record holds the quotient
    by [2 ^ k] and places the remainder with respect to the half. *)
Definition located (k : Z) (M : Z) (mrs : shr_record) : Prop :=
  exists rem,
    M = shr_m mrs * 2 ^ k + rem /\ 0 <= rem < 2 ^ k /\ 0 <= shr_m mrs /\
    match shr_r mrs, shr_s mrs with
    | false, false => rem = 0
    | false, true => 0 < 2 * rem < 2 ^ k
    | true, false => 2 * rem = 2 ^ k
    | true, true => 2 ^ k < 2 * rem
    end.

Definition bpow (e : Z) : R := powerRZ 2 e.

(** The unit roundoff of binary64. *)
Definition u : R := bpow (-53).

(** The rounded value is within a relative error [u] of the exact one. *)
Definition close_to (v exact : R) : Prop :=
  ((1 - u) * exact <= v <= (1 + u) * exact)%R.

End Binary64.
Import Binary64.

(** ** Binary64 arithmetic: what the rounding of [SpecFloat] guarantees *)

Module Binary64Facts.

Local Close Scope string_scope.

(** *** Number of digits *)

Lemma digits2_pos_size (p : positive) : digits2_pos p = Pos.size p.
Proof. induction p; simpl; congruence. Qed.

Lemma Zdigits2_log2 (z : Z) : 0 < z -> Zdigits2 z = Z.log2 z + 1.
Proof.
  destruct z as [|p|p]; try lia. intros _.
  simpl. rewrite digits2_pos_size.
  destruct p; simpl; lia.
Qed.

Lemma Zdigits2_unique (z k : Z) :
  0 < z -> 2 ^ (k - 1) <= z < 2 ^ k -> Zdigits2 z = k.
Proof.
  intros Hz H. rewrite Zdigits2_log2 by assumption.
  assert (0 <= k - 1).
  { destruct (Z_lt_le_dec (k - 1) 0) as [Hk|Hk]; [|assumption].
    assert (k - 1 < 0) by lia.
    destruct (Z.eq_dec k 0) as [->|Hk0].
    - simpl in H. lia.
    - rewrite (Z.pow_neg_r 2 k) in H by lia. lia. }
  rewrite (Z.log2_unique z (k - 1)); try lia.
  replace (Z.succ (k - 1)) with k by lia. assumption.
Qed.

(** *** Shifting a mantissa right *)

Lemma iter_pos_nat {A} (f : A -> A) (p : positive) (x : A) :
  SpecFloat.iter_pos f p x = Nat.iter (Pos.to_nat p) f x.
Proof.
  revert x. induction p as [p IH|p IH|]; intros x; cbn [SpecFloat.iter_pos].
  - rewrite !IH, Pos2Nat.inj_xI.
    replace (S (2 * Pos.to_nat p)) with (Pos.to_nat p + S (Pos.to_nat p))%nat by lia.
    rewrite Nat.iter_add, Nat.iter_succ_r. reflexivity.
  - rewrite !IH, Pos2Nat.inj_xO.
    replace (2 * Pos.to_nat p)%nat with (Pos.to_nat p + Pos.to_nat p)%nat by lia.
    rewrite Nat.iter_add. reflexivity.
  - reflexivity.
Qed.

Lemma located_start (M : Z) :
  0 <= M -> located 0 M (Build_shr_record M false false).
Proof. intros H. exists 0. simpl. lia. Qed.

Lemma shr_1_nonneg (m : Z) (r s : bool) :
  0 <= m ->
  shr_1 (Build_shr_record m r s) =
  Build_shr_record (m / 2) (Z.odd m) (orb r s).
Proof.
  intros Hm. destruct m as [|p|p]; try lia.
  - reflexivity.
  - destruct p as [p|p|]; simpl.
    + rewrite Pos2Z.inj_xI.
      replace (2 * Z.pos p + 1) with (1 + Z.pos p * 2) by lia.
      rewrite Z.div_add by lia. reflexivity.
    + rewrite Pos2Z.inj_xO.
      replace (2 * Z.pos p) with (Z.pos p * 2) by lia.
      rewrite Z.div_mul by lia. reflexivity.
    + reflexivity.
Qed.

Lemma located_step (k M : Z) (mrs : shr_record) :
  0 <= k -> located k M mrs -> located (k + 1) M (shr_1 mrs).
Proof.
  intros Hk (rem & HM & Hrem & Hm & Hloc).
  destruct mrs as [m r s]. cbn [shr_m shr_r shr_s] in *.
  rewrite shr_1_nonneg by assumption.
  assert (Hp : 2 ^ (k + 1) = 2 * 2 ^ k) by (rewrite Z.pow_add_r; lia).
  assert (Hpos : 0 < 2 ^ k) by (apply Z.pow_pos_nonneg; lia).
  pose proof (Z.div_mod m 2 ltac:(lia)) as Hdm.
  pose proof (Z.mod_pos_bound m 2 ltac:(lia)) as Hmb.
  assert (Hodd : Z.odd m = true /\ m mod 2 = 1 \/ Z.odd m = false /\ m mod 2 = 0).
  { rewrite Zmod_odd. destruct (Z.odd m); auto. }
  exists (rem + (m mod 2) * 2 ^ k). cbn [shr_m shr_r shr_s].
  rewrite Hp.
  assert (0 <= m / 2) by (apply Z.div_pos; lia).
  set (P := 2 ^ k) in *.
  split; [lia|]. split; [lia|]. split; [lia|].
  destruct Hodd as [[-> Hm2]|[-> Hm2]]; rewrite Hm2;
    destruct r, s; cbn [orb] in *; lia.
Qed.

Lemma located_iter (n : nat) (M : Z) :
  0 <= M ->
  located (Z.of_nat n) M (Nat.iter n shr_1 (Build_shr_record M false false)).
Proof.
  intros HM. induction n as [|n IH].
  - apply located_start; assumption.
  - rewrite Nat2Z.inj_succ. unfold Z.succ. simpl.
    apply located_step; [lia | assumption].
Qed.

Lemma located_round (k M : Z) (mrs : shr_record) :
  located k M mrs ->
  Z.abs (2 * round_nearest_even (shr_m mrs) (loc_of_shr_record mrs) * 2 ^ k
         - 2 * M) <= 2 ^ k /\
  M / 2 ^ k <= round_nearest_even (shr_m mrs) (loc_of_shr_record mrs)
            <= M / 2 ^ k + 1.
Proof.
  intros (rem & HM & Hrem & Hm & Hloc).
  assert (Hq : M / 2 ^ k = shr_m mrs).
  { symmetry. apply (Z.div_unique_pos M (2 ^ k) (shr_m mrs) rem); lia. }
  rewrite Hq. destruct mrs as [m r s]. cbn [shr_m shr_r shr_s] in *.
  set (P := 2 ^ k) in *.
  destruct r, s; cbn [loc_of_shr_record round_nearest_even];
    try destruct (Z.even m); lia.
Qed.

(** *** The exponent function at binary64 *)

Lemma fexp_normal (e : Z) : -1021 <= e -> fexp prec emax e = e - 53.
Proof. intros H. unfold fexp, SpecFloat.emin, prec, emax. lia. Qed.

Lemma shr_fexp_exact (mx ex k : Z) :
  0 <= k -> 2 ^ (52 + k) <= mx < 2 ^ (53 + k) -> -1074 <= ex + k ->
  exists mrs,
    shr_fexp prec emax mx ex loc_Exact = (mrs, ex + k) /\ located k mx mrs.
Proof.
  intros Hk Hmx He.
  assert (Hpos : 0 < mx).
  { assert (0 < 2 ^ (52 + k)) by (apply Z.pow_pos_nonneg; lia). lia. }
  unfold shr_fexp.
  rewrite (Zdigits2_unique mx (53 + k)) by
    (try assumption; replace (53 + k - 1) with (52 + k) by lia; assumption).
  rewrite fexp_normal by lia.
  replace (53 + k + ex - 53 - ex) with k by lia.
  cbn [shr_record_of_loc].
  destruct k as [|p|p]; try lia.
  - exists (Build_shr_record mx false false). cbn [shr].
    split; [f_equal; lia | apply located_start; lia].
  - exists (SpecFloat.iter_pos shr_1 p (Build_shr_record mx false false)).
    cbn [shr]. split; [reflexivity|].
    rewrite iter_pos_nat. rewrite <- (positive_nat_Z p).
    apply located_iter. lia.
Qed.

Lemma shr_fexp_noshift (q ex : Z) (l : location) :
  2 ^ 52 <= q < 2 ^ 53 -> -1074 <= ex ->
  shr_fexp prec emax q ex l = (shr_record_of_loc q l, ex).
Proof.
  intros Hq He. unfold shr_fexp.
  rewrite (Zdigits2_unique q 53) by (try assumption; lia).
  rewrite fexp_normal by lia.
  replace (53 + ex - 53 - ex) with 0 by lia. reflexivity.
Qed.

(** The second normalisation of [binary_round_aux]: a rounded mantissa
    that reached [2 ^ 53] is shifted once more. *)
Lemma shr_fexp_finish (q1 e : Z) :
  2 ^ 52 <= q1 <= 2 ^ 53 -> -1074 <= e ->
  exists m e2,
    shr_fexp prec emax q1 e loc_Exact =
      (Build_shr_record (Zpos m) false false, e2) /\
    2 ^ 52 <= Zpos m < 2 ^ 53 /\
    (Zpos m = q1 /\ e2 = e \/ q1 = 2 ^ 53 /\ Zpos m = 2 ^ 52 /\ e2 = e + 1).
Proof.
  intros Hq He.
  destruct (Z.eq_dec q1 (2 ^ 53)) as [->|Hne].
  - exists (Z.to_pos (2 ^ 52)), (e + 1).
    split; [|split; [|right]]; try (rewrite Z2Pos.id; lia).
    unfold shr_fexp.
    replace (Zdigits2 (2 ^ 53)) with 54 by reflexivity.
    rewrite fexp_normal by lia.
    replace (54 + e - 53 - e) with 1 by lia.
    reflexivity.
  - assert (Hlt : 2 ^ 52 <= q1 < 2 ^ 53) by lia.
    exists (Z.to_pos q1), e.
    rewrite Z2Pos.id by lia.
    split; [|split; [assumption|left; split; reflexivity]].
    rewrite shr_fexp_noshift by assumption. reflexivity.
Qed.

Lemma loc_of_record_of (m : Z) (l : location) :
  loc_of_shr_record (shr_record_of_loc m l) = l.
Proof. destruct l as [|[]]; reflexivity. Qed.

(** [binary_round_aux] on an exact mantissa of [53 + k] digits. *)
Lemma binary_round_aux_exact (mx ex k : Z) :
  0 <= k -> 2 ^ (52 + k) <= mx < 2 ^ (53 + k) ->
  -1074 <= ex + k -> ex + k < 971 ->
  exists m e qs,
    binary_round_aux prec emax false mx ex loc_Exact = S754_finite false m e /\
    2 ^ 52 <= Zpos m < 2 ^ 53 /\
    (Zpos m = qs /\ e = ex + k \/
     qs = 2 ^ 53 /\ Zpos m = 2 ^ 52 /\ e = ex + k + 1) /\
    Z.abs (2 * qs * 2 ^ k - 2 * mx) <= 2 ^ k.
Proof.
  intros Hk Hmx Hlo Hhi.
  destruct (shr_fexp_exact mx ex k Hk Hmx Hlo) as (mrs & Hshr & Hloc).
  pose proof (located_round k mx mrs Hloc) as [Hrnd Hbnd].
  set (q1 := round_nearest_even (shr_m mrs) (loc_of_shr_record mrs)) in *.
  assert (Hq1 : 2 ^ 52 <= q1 <= 2 ^ 53).
  { assert (Hp : 0 < 2 ^ k) by (apply Z.pow_pos_nonneg; lia).
    assert (H1 : 2 ^ 52 <= mx / 2 ^ k).
    { apply Z.div_le_lower_bound; [lia|].
      rewrite (Z.pow_add_r 2 52 k) in Hmx by lia. lia. }
    assert (H2 : mx / 2 ^ k < 2 ^ 53).
    { apply Z.div_lt_upper_bound; [lia|].
      rewrite (Z.pow_add_r 2 53 k) in Hmx by lia. lia. }
    lia. }
  destruct (shr_fexp_finish q1 (ex + k) Hq1 Hlo) as (m & e2 & Hfin & Hm & Hcase).
  exists m, e2, q1.
  split; [|split; [assumption|split; [|assumption]]].
  - unfold binary_round_aux. rewrite Hshr. fold q1. rewrite Hfin.
    cbn [shr_m].
    replace (e2 <=? emax - prec) with true; [reflexivity|].
    symmetry. apply Z.leb_le. unfold emax, prec. lia.
  - destruct Hcase as [[? ?]|[? [? ?]]]; [left|right]; auto.
Qed.

(** [binary_round_aux] on a mantissa of 53 digits with a location. *)
Lemma binary_round_aux_noshift (q ex : Z) (l : location) :
  2 ^ 52 <= q < 2 ^ 53 -> -1074 <= ex -> ex < 971 ->
  exists m e qs,
    binary_round_aux prec emax false q ex l = S754_finite false m e /\
    2 ^ 52 <= Zpos m < 2 ^ 53 /\
    (Zpos m = qs /\ e = ex \/
     qs = 2 ^ 53 /\ Zpos m = 2 ^ 52 /\ e = ex + 1) /\
    qs = round_nearest_even q l.
Proof.
  intros Hq Hlo Hhi.
  set (q1 := round_nearest_even q l).
  assert (Hq1 : 2 ^ 52 <= q1 <= 2 ^ 53).
  { unfold q1. destruct l as [|[]]; cbn [round_nearest_even];
      try destruct (Z.even q); lia. }
  destruct (shr_fexp_finish q1 ex Hq1 Hlo) as (m & e2 & Hfin & Hm & Hcase).
  exists m, e2, q1.
  split; [|split; [assumption|split; [|reflexivity]]].
  - unfold binary_round_aux. rewrite shr_fexp_noshift by assumption.
    cbn [shr_m]. rewrite loc_of_record_of.
    replace (shr_m (shr_record_of_loc q l)) with q by (destruct l as [|[]]; reflexivity).
    fold q1. rewrite Hfin. cbn [shr_m].
    replace (e2 <=? emax - prec) with true; [reflexivity|].
    symmetry. apply Z.leb_le. unfold emax, prec. lia.
  - destruct Hcase as [[? ?]|[? [? ?]]]; [left|right]; auto.
Qed.

(** *** Real values *)

Lemma bpow_pos (e : Z) : (0 < bpow e)%R.
Proof. unfold bpow. apply powerRZ_lt. lra. Qed.

Lemma bpow_add (a b : Z) : bpow (a + b) = (bpow a * bpow b)%R.
Proof. unfold bpow. apply powerRZ_add. lra. Qed.

Lemma bpow_IZR (k : Z) : 0 <= k -> IZR (2 ^ k) = bpow k.
Proof.
  intros Hk. unfold bpow.
  rewrite <- (Z2Nat.id k) by assumption.
  rewrite <- pow_powerRZ, <- pow_IZR. reflexivity.
Qed.

Lemma bpow_0 : bpow 0 = 1%R.
Proof. reflexivity. Qed.

Lemma u_eq : u = (/ IZR (2 ^ 53))%R.
Proof.
  unfold u, bpow. rewrite (bpow_IZR 53) by lia. unfold bpow.
  change (-53) with (- (53)). rewrite powerRZ_neg'. reflexivity.
Qed.

Lemma rounded_close (qs mx k ex : Z) :
  0 <= k -> 2 ^ (52 + k) <= mx ->
  Z.abs (2 * qs * 2 ^ k - 2 * mx) <= 2 ^ k ->
  close_to (IZR qs * bpow (ex + k)) (IZR mx * bpow ex).
Proof.
  intros Hk Hmx Habs.
  assert (Hp : 0 < 2 ^ k) by (apply Z.pow_pos_nonneg; lia).
  rewrite (Z.pow_add_r 2 52 k) in Hmx by lia.
  assert (H1 : 2 * qs * 2 ^ k <= 2 * mx + 2 ^ k) by lia.
  assert (H2 : 2 * mx - 2 ^ k <= 2 * qs * 2 ^ k) by lia.
  apply IZR_le in H1, H2, Hmx. apply IZR_lt in Hp.
  rewrite plus_IZR, !mult_IZR in H1.
  rewrite minus_IZR, !mult_IZR in H2.
  rewrite mult_IZR in Hmx.
  rewrite (bpow_IZR k) in * by assumption.
  unfold close_to. rewrite u_eq.
  rewrite (Z.add_comm ex k), bpow_add.
  pose proof (bpow_pos ex) as Hex.
  set (K := bpow k) in *. set (B := bpow ex) in *.
  set (A := IZR qs) in *. set (X := IZR mx) in *.
  replace (IZR (2 ^ 53)) with (2 * IZR (2 ^ 52))%R
    by (rewrite <- mult_IZR; reflexivity).
  set (T := IZR (2 ^ 52)) in *.
  assert (HT : (0 < T)%R) by (unfold T; apply IZR_lt; reflexivity).
  assert (HK : (K <= X / T)%R).
  { apply (Rmult_le_reg_r T); [lra|].
    replace (X / T * T)%R with X by (field; lra). lra. }
  assert (Hi : (/ (2 * T) * X = X / T / 2)%R) by (field; lra).
  split.
  - replace ((1 - / (2 * T)) * (X * B))%R with ((X - X / T / 2) * B)%R
      by (rewrite <- Hi; ring).
    replace (A * (K * B))%R with ((A * K) * B)%R by ring.
    apply Rmult_le_compat_r; lra.
  - replace ((1 + / (2 * T)) * (X * B))%R with ((X + X / T / 2) * B)%R
      by (rewrite <- Hi; ring).
    replace (A * (K * B))%R with ((A * K) * B)%R by ring.
    apply Rmult_le_compat_r; lra.
Qed.

(** *** Conversion of an integer *)

Lemma pos_iter_xO (p k : positive) :
  Zpos (Pos.iter xO p k) = Zpos p * 2 ^ Zpos k.
Proof.
  induction k as [|k IH] using Pos.peano_ind.
  - simpl. lia.
  - rewrite Pos.iter_succ, Pos2Z.inj_xO, IH, Pos2Z.inj_succ, Z.pow_succ_r; lia.
Qed.

Lemma digits_bounds (z : Z) :
  0 < z -> 2 ^ (Zdigits2 z - 1) <= z < 2 ^ Zdigits2 z /\ 1 <= Zdigits2 z.
Proof.
  intros Hz. rewrite Zdigits2_log2 by assumption.
  pose proof (Z.log2_spec z Hz) as H.
  pose proof (Z.log2_nonneg z).
  replace (Z.log2 z + 1 - 1) with (Z.log2 z) by lia.
  replace (Z.log2 z + 1) with (Z.succ (Z.log2 z)) by lia. lia.
Qed.

Lemma digits_le (z k : Z) : 0 < z -> 0 <= k -> z < 2 ^ k -> Zdigits2 z <= k.
Proof.
  intros Hz Hk Hlt. destruct (digits_bounds z Hz) as [[Hlo _] Hd].
  destruct (Z_le_gt_dec (Zdigits2 z) k) as [|Hgt]; [assumption|exfalso].
  assert (2 ^ k <= 2 ^ (Zdigits2 z - 1)) by (apply Z.pow_le_mono_r; lia).
  lia.
Qed.

Lemma float_of_int_spec (x : Z) :
  0 < x < 2 ^ 53 ->
  exists m e,
    float_of_int x = Ok (S754_finite false m e) /\
    2 ^ 52 <= Zpos m < 2 ^ 53 /\ -52 <= e <= 0 /\
    (IZR (Zpos m) * bpow e = IZR x)%R.
Proof.
  intros [Hx0 Hx].
  destruct (digits_bounds x Hx0) as [Hd Hd1].
  pose proof (digits_le x 53 Hx0 ltac:(lia) Hx) as Hd53.
  destruct x as [|p|p]; try lia.
  set (d := Zdigits2 (Zpos p)) in *.
  set (k := 53 - d).
  assert (Hmx : 2 ^ (52 + 0) <= Zpos p * 2 ^ k < 2 ^ (53 + 0)).
  { replace (52 + 0) with ((d - 1) + k) by (unfold k; lia).
    replace (53 + 0) with (d + k) by (unfold k; lia).
    rewrite !Z.pow_add_r by (unfold k; lia).
    assert (0 < 2 ^ k) by (apply Z.pow_pos_nonneg; unfold k; lia).
    nia. }
  destruct (binary_round_aux_exact (Zpos p * 2 ^ k) (d - 53) 0
              ltac:(lia) Hmx ltac:(lia) ltac:(lia))
    as (m & e & qs & Hbra & Hm & Hcase & Habs).
  assert (Hqs : qs = Zpos p * 2 ^ k) by (simpl (2 ^ 0) in Habs; lia).
  assert (Hme : Zpos m = Zpos p * 2 ^ k /\ e = d - 53).
  { destruct Hcase as [[? ?]|[? [? ?]]]; [split; lia|].
    simpl (53 + 0) in Hmx. lia. }
  destruct Hme as [Hmv He].
  exists m, e.
  split; [|split; [assumption|split; [lia|]]].
  - unfold float_of_int, binary_normalize, binary_round.
    change (Zpos (digits2_pos p)) with d.
    rewrite Z.add_0_r, fexp_normal by lia.
    unfold shl_align.
    destruct (Z.eq_dec d 53) as [Hd'|Hd'].
    + replace (d - 53 - 0) with 0 by lia.
      replace (Zpos p * 2 ^ k) with (Zpos p) in Hbra
        by (unfold k; rewrite Hd'; simpl (2 ^ (53 - 53)); lia).
      replace (d - 53) with 0 in Hbra by lia.
      rewrite Hbra. reflexivity.
    + destruct (d - 53 - 0) as [|q|q] eqn:E; try lia.
      cbv beta iota. rewrite pos_iter_xO.
      replace (Zpos q) with k by (unfold k; lia).
      rewrite Hbra. reflexivity.
  - rewrite Hmv, He, mult_IZR, (bpow_IZR k) by (unfold k; lia).
    rewrite Rmult_assoc, <- bpow_add.
    replace (k + (d - 53)) with 0 by (unfold k; lia).
    rewrite bpow_0. ring.
Qed.

Lemma carry_value (m : positive) (e qs e0 : Z) :
  Zpos m = qs /\ e = e0 \/ qs = 2 ^ 53 /\ Zpos m = 2 ^ 52 /\ e = e0 + 1 ->
  (IZR (Zpos m) * bpow e = IZR qs * bpow e0)%R.
Proof.
  intros [[-> ->]|(-> & -> & ->)]; [reflexivity|].
  rewrite (Z.add_comm e0 1), bpow_add.
  replace (IZR (2 ^ 53)) with (IZR (2 ^ 52) * 2)%R
    by (rewrite <- mult_IZR; reflexivity).
  replace (bpow 1) with 2%R by (unfold bpow; simpl; ring). ring.
Qed.

(** *** Division of [max_size] by the longer side *)

Lemma new_location_spec (m r : Z) :
  0 < m -> 0 <= r < m ->
  match new_location m r with
  | loc_Exact => r = 0
  | loc_Inexact Lt => 0 < 2 * r < m
  | loc_Inexact Eq => 2 * r = m
  | loc_Inexact Gt => m < 2 * r
  end.
Proof.
  intros Hm Hr. unfold new_location, new_location_even, new_location_odd.
  pose proof (Zmod_even m) as Hev.
  destruct (Z.even m); destruct (Z.eqb_spec r 0) as [->|Hne]; try reflexivity.
  - destruct (Z.compare_spec (2 * r) m); lia.
  - cbv iota in Hev. pose proof (Z.div_mod m 2 ltac:(lia)).
    destruct (Z.compare_spec (2 * r + 1) m); lia.
Qed.

Lemma round_division (q r m : Z) :
  0 < m -> 0 <= r < m ->
  Z.abs (2 * round_nearest_even q (new_location m r) * m - 2 * (q * m + r)) <= m.
Proof.
  intros Hm Hr. pose proof (new_location_spec m r Hm Hr) as Hl.
  destruct (new_location m r) as [|[]]; cbn [round_nearest_even];
    try destruct (Z.even q); nia.
Qed.

Lemma div_core_max_size (m : Z) :
  2048 < m < 2 ^ 62 ->
  SFdiv_core_binary prec emax 2048 0 m 0 =
  (2 ^ (52 + Zdigits2 m) / m, - 41 - Zdigits2 m,
   new_location m (2 ^ (52 + Zdigits2 m) mod m)).
Proof.
  intros Hm.
  destruct (digits_bounds m ltac:(lia)) as [Hd Hd1].
  pose proof (digits_le m 62 ltac:(lia) ltac:(lia) ltac:(lia)) as Hd62.
  unfold SFdiv_core_binary.
  change (Zdigits2 2048) with 12.
  set (d := Zdigits2 m) in *.
  replace (12 + 0 - (d + 0)) with (12 - d) by lia.
  rewrite fexp_normal by lia.
  rewrite Z.min_l by lia.
  replace (0 - 0 - (12 - d - 53)) with (41 + d) by lia.
  replace (12 - d - 53) with (- 41 - d) by lia.
  destruct (41 + d) as [|s|s] eqn:Hs; try lia.
  rewrite Z.shiftl_mul_pow2 by lia. rewrite <- Hs.
  replace (2048 * 2 ^ (41 + d)) with (2 ^ (52 + d)).
  2:{ replace (52 + d) with (11 + (41 + d)) by lia.
      rewrite Z.pow_add_r by lia. reflexivity. }
  unfold Z.div, Z.modulo.
  destruct (Z.div_eucl (2 ^ (52 + d)) m) as [q r]. reflexivity.
Qed.

Lemma truediv_max_size_spec (m : Z) :
  2048 < m < 2 ^ 62 ->
  exists q e,
    int_truediv 2048 m = Ok (S754_finite false q e) /\
    2 ^ 52 <= Zpos q < 2 ^ 53 /\ -104 <= e <= -52 /\
    close_to (IZR (Zpos q) * bpow e) (2048 / IZR m).
Proof.
  intros Hm.
  destruct (digits_bounds m ltac:(lia)) as [Hd Hd1].
  pose proof (digits_le m 62 ltac:(lia) ltac:(lia) ltac:(lia)) as Hd62.
  pose proof (div_core_max_size m Hm) as Hcore.
  set (d := Zdigits2 m) in *.
  assert (Hd12 : 12 <= d).
  { destruct (Z_le_gt_dec 12 d) as [|Hgt]; [assumption|exfalso].
    assert (2 ^ d <= 2 ^ 11) by (apply Z.pow_le_mono_r; lia). lia. }
  set (N := 2 ^ (52 + d)) in *.
  assert (HN1 : N = 2 ^ 53 * 2 ^ (d - 1)).
  { unfold N. replace (52 + d) with (53 + (d - 1)) by lia.
    apply Z.pow_add_r; lia. }
  assert (HN2 : N = 2 ^ 52 * 2 ^ d).
  { unfold N. apply Z.pow_add_r; lia. }
  pose proof (Z.div_mod N m ltac:(lia)) as Hdm.
  pose proof (Z.mod_pos_bound N m ltac:(lia)) as Hr.
  set (Qd := N / m) in *. set (r := N mod m) in *.
  assert (HQ : 2 ^ 52 <= Qd <= 2 ^ 53) by nia.
  assert (Hexact : (IZR N * bpow (- 41 - d) = 2048)%R).
  { unfold N. rewrite bpow_IZR, <- bpow_add by lia.
    replace (52 + d + (- 41 - d)) with 11 by lia.
    unfold bpow. simpl. lra. }
  assert (Hmr : (0 < IZR m)%R) by (apply IZR_lt; lia).
  assert (Hrun :
    forall f, binary_round_aux prec emax false Qd (- 41 - d) (new_location m r) = f ->
    match f with S754_infinity _ => False | _ => True end ->
    int_truediv 2048 m = Ok f).
  { intros f Hf Hfin. unfold int_truediv.
    destruct m as [|pm|pm]; try lia.
    change (Z.abs 2048) with 2048. change (Z.abs (Zpos pm)) with (Zpos pm).
    cbv beta iota. rewrite Hcore.
    change (xorb (2048 <? 0) (Z.pos pm <? 0)) with false.
    rewrite Hf. destruct f; try reflexivity. contradiction. }
  destruct (Z.eq_dec Qd (2 ^ 53)) as [HQe|HQne].
  - assert (Hr0 : r = 0) by nia.
    pose proof (new_location_spec m r ltac:(lia) Hr) as Hl.
    assert (Hloc : new_location m r = loc_Exact).
    { destruct (new_location m r) as [|[]]; [reflexivity|lia|lia|lia]. }
    destruct (binary_round_aux_exact (2 ^ 53) (- 41 - d) 1
                ltac:(lia) ltac:(simpl; lia) ltac:(lia) ltac:(lia))
      as (q & e & qs & Hbra & Hq & Hcase & Habs).
    exists q, e. split; [|split; [assumption|split; [lia|]]].
    + apply Hrun; [|exact I]. rewrite Hloc, HQe. exact Hbra.
    + rewrite (carry_value q e qs (- 41 - d + 1) Hcase).
      pose proof (rounded_close qs (2 ^ 53) 1 (- 41 - d)
                    ltac:(lia) ltac:(simpl; lia) Habs) as Hc.
      replace (2048 / IZR m)%R with (IZR (2 ^ 53) * bpow (- 41 - d))%R;
        [exact Hc|].
      assert (HNm : N = 2 ^ 53 * m) by lia.
      rewrite <- Hexact, HNm, mult_IZR. field. lra.
  - destruct (binary_round_aux_noshift Qd (- 41 - d) (new_location m r)
                ltac:(lia) ltac:(lia) ltac:(lia))
      as (q & e & qs & Hbra & Hq & Hcase & Hqs).
    exists q, e. split; [|split; [assumption|split; [lia|]]].
    + apply Hrun; [exact Hbra|exact I].
    + rewrite (carry_value q e qs (- 41 - d) Hcase).
      pose proof (round_division Qd r m ltac:(lia) Hr) as Hrd.
      rewrite <- Hqs in Hrd.
      replace (Qd * m + r) with N in Hrd by lia.
      assert (H1 : 2 * qs * m <= 2 * N + m) by lia.
      assert (H2 : 2 * N - m <= 2 * qs * m) by lia.
      assert (H3 : 2 ^ 52 * m <= N) by nia.
      apply IZR_le in H1, H2, H3.
      rewrite plus_IZR, !mult_IZR in H1.
      rewrite minus_IZR, !mult_IZR in H2.
      rewrite mult_IZR in H3.
      unfold close_to. rewrite u_eq, <- Hexact.
      pose proof (bpow_pos (- 41 - d)) as HB.
      set (B := bpow (- 41 - d)) in *.
      set (A := IZR qs) in *. set (X := IZR N) in *. set (Y := IZR m) in *.
      replace (IZR (2 ^ 53)) with (2 * IZR (2 ^ 52))%R
        by (rewrite <- mult_IZR; reflexivity).
      set (T := IZR (2 ^ 52)) in *.
      assert (HT : (0 < T)%R) by (unfold T; apply IZR_lt; reflexivity).
      assert (Hhalf : (/ 2 <= / (2 * T) * (X / Y))%R).
      { replace (/ (2 * T) * (X / Y))%R with (/ 2 * (X / (T * Y)))%R
          by (field; lra).
        assert (1 <= X / (T * Y))%R; [|lra].
        apply (Rmult_le_reg_r (T * Y)); [nra|].
        replace (X / (T * Y) * (T * Y))%R with X by (field; lra). lra. }
      assert (HA1 : (A <= X / Y + / 2)%R).
      { apply (Rmult_le_reg_r (2 * Y)); [lra|].
        replace ((X / Y + / 2) * (2 * Y))%R with (2 * X + Y)%R by (field; lra).
        lra. }
      assert (HA2 : (X / Y - / 2 <= A)%R).
      { apply (Rmult_le_reg_r (2 * Y)); [lra|].
        replace ((X / Y - / 2) * (2 * Y))%R with (2 * X - Y)%R by (field; lra).
        lra. }
      replace (X * B / Y)%R with ((X / Y) * B)%R by (field; lra).
      split.
      * replace ((1 - / (2 * T)) * (X / Y * B))%R
          with ((X / Y - / (2 * T) * (X / Y)) * B)%R by ring.
        apply Rmult_le_compat_r; lra.
      * replace ((1 + / (2 * T)) * (X / Y * B))%R
          with ((X / Y + / (2 * T) * (X / Y)) * B)%R by ring.
        apply Rmult_le_compat_r; lra.
Qed.

(** *** Multiplication and truncation *)

Lemma SFmul_spec (mx my : positive) (ex ey : Z) :
  2 ^ 52 <= Zpos mx < 2 ^ 53 -> 2 ^ 52 <= Zpos my < 2 ^ 53 ->
  -1000 <= ex + ey <= 900 ->
  exists m e,
    SFmul prec emax (S754_finite false mx ex) (S754_finite false my ey)
      = S754_finite false m e /\
    2 ^ 52 <= Zpos m < 2 ^ 53 /\
    close_to (IZR (Zpos m) * bpow e)
             ((IZR (Zpos mx) * bpow ex) * (IZR (Zpos my) * bpow ey)).
Proof.
  intros Hx Hy He.
  cbn [SFmul xorb]. rewrite Pos2Z.inj_mul.
  set (P := Zpos mx * Zpos my).
  assert (HP : 2 ^ 104 <= P < 2 ^ 106).
  { unfold P. change (2 ^ 104) with (2 ^ 52 * 2 ^ 52).
    change (2 ^ 106) with (2 ^ 53 * 2 ^ 53). nia. }
  assert (Hk : exists k, (k = 52 \/ k = 53) /\ 2 ^ (52 + k) <= P < 2 ^ (53 + k)).
  { destruct (Z_lt_le_dec P (2 ^ 105)) as [Hlt|Hge].
    - exists 52. split; [left; reflexivity|].
      change (2 ^ (52 + 52)) with (2 ^ 104).
      change (2 ^ (53 + 52)) with (2 ^ 105). lia.
    - exists 53. split; [right; reflexivity|].
      change (2 ^ (52 + 53)) with (2 ^ 105).
      change (2 ^ (53 + 53)) with (2 ^ 106). lia. }
  destruct Hk as (k & Hk & HPk).
  destruct (binary_round_aux_exact P (ex + ey) k
              ltac:(lia) HPk ltac:(lia) ltac:(lia))
    as (m & e & qs & Hbra & Hm & Hcase & Habs).
  exists m, e. split; [exact Hbra|split; [assumption|]].
  rewrite (carry_value m e qs (ex + ey + k) Hcase).
  pose proof (rounded_close qs P k (ex + ey) ltac:(lia) (proj1 HPk) Habs) as Hc.
  replace (IZR (Zpos mx) * bpow ex * (IZR (Zpos my) * bpow ey))%R
    with (IZR P * bpow (ex + ey))%R; [exact Hc|].
  unfold P. rewrite mult_IZR, bpow_add. ring.
Qed.

Lemma int_of_float_floor (m : positive) (e : Z) :
  exists z,
    int_of_float (S754_finite false m e) = Ok z /\
    (IZR z <= IZR (Zpos m) * bpow e < IZR z + 1)%R.
Proof.
  unfold int_of_float.
  destruct e as [|p|p].
  - exists (Zpos m). split; [reflexivity|].
    rewrite bpow_0. lra.
  - exists (Zpos m * 2 ^ Zpos p). split.
    + rewrite Z.shiftl_mul_pow2 by lia. reflexivity.
    + rewrite mult_IZR, bpow_IZR by lia. lra.
  - exists (Zpos m / 2 ^ Zpos p). split.
    + rewrite Z.shiftr_div_pow2 by lia. reflexivity.
    + assert (HP : 0 < 2 ^ Zpos p) by (apply Z.pow_pos_nonneg; lia).
      pose proof (Z.div_mod (Zpos m) (2 ^ Zpos p) ltac:(lia)) as Hdm.
      pose proof (Z.mod_pos_bound (Zpos m) (2 ^ Zpos p) HP) as Hr.
      set (z := Zpos m / 2 ^ Zpos p) in *.
      assert (H1 : z * 2 ^ Zpos p <= Zpos m) by lia.
      assert (H2 : Zpos m + 1 <= (z + 1) * 2 ^ Zpos p) by lia.
      apply IZR_le in H1, H2. apply IZR_lt in HP.
      rewrite mult_IZR in H1. rewrite plus_IZR, mult_IZR, plus_IZR in H2.
      rewrite bpow_IZR in H1, H2, HP by lia.
      assert (Hinv : (bpow (Zpos p) * bpow (Zneg p) = 1)%R).
      { rewrite <- bpow_add. replace (Zpos p + Zneg p) with 0 by lia.
        apply bpow_0. }
      pose proof (bpow_pos (Zneg p)) as HB.
      set (K := bpow (Zpos p)) in *. set (B := bpow (Zneg p)) in *.
      set (X := IZR (Zpos m)) in *. set (Y := IZR z) in *.
      split.
      * replace Y with ((Y * K) * B)%R by (rewrite Rmult_assoc, Hinv; ring).
        apply Rmult_le_compat_r; lra.
      * replace (Y + 1)%R with (((Y + 1) * K) * B)%R
          by (rewrite Rmult_assoc, Hinv; ring).
        apply Rmult_lt_compat_r; lra.
Qed.

(** *** One scaled dimension *)

Lemma u_val : u = (/ 9007199254740992)%R.
Proof. rewrite u_eq. reflexivity. Qed.

Lemma scaled_dimension (x m : Z) (q : positive) (e : Z) :
  0 < x <= m -> 2048 < m < 2 ^ 31 ->
  2 ^ 52 <= Zpos q < 2 ^ 53 -> -104 <= e <= -52 ->
  close_to (IZR (Zpos q) * bpow e) (2048 / IZR m) ->
  exists fx x',
    int_mul_float x (S754_finite false q e) = Ok fx /\
    int_of_float fx = Ok x' /\
    m * x' <= 2048 * x <= m * (x' + 1).
Proof.
  intros Hx Hm Hq He Hratio.
  destruct (float_of_int_spec x ltac:(lia)) as (mx & ex & Hfx & Hmx & Hex & Hvx).
  destruct (SFmul_spec mx q ex e Hmx Hq ltac:(lia)) as (mp & ep & Hmul & Hmp & Hprod).
  destruct (int_of_float_floor mp ep) as (z & Hint & Hfloor).
  exists (S754_finite false mp ep), z.
  split; [unfold int_mul_float; rewrite Hfx, Hmul; reflexivity|].
  split; [exact Hint|].
  rewrite Hvx in Hprod.
  unfold close_to in Hratio, Hprod. rewrite u_val in Hratio, Hprod.
  set (rho := (IZR (Zpos q) * bpow e)%R) in *.
  set (V := (IZR (Zpos mp) * bpow ep)%R) in *.
  assert (HX : (0 < IZR x)%R) by (apply IZR_lt; lia).
  assert (HM : (0 < IZR m)%R) by (apply IZR_lt; lia).
  assert (HXM : (IZR x <= IZR m)%R) by (apply IZR_le; lia).
  assert (HM31 : (IZR m < 2147483648)%R) by (apply IZR_lt; lia).
  set (Xr := IZR x) in *. set (Mr := IZR m) in *.
  set (E := (2048 * Xr / Mr)%R).
  set (c := (/ 9007199254740992)%R) in *.
  assert (Hc : (0 < c)%R) by (unfold c; lra).
  assert (HE : (Mr * E = 2048 * Xr)%R) by (unfold E; field; lra).
  assert (HE0 : (0 <= E <= 2048)%R).
  { split.
    - unfold E. apply Rmult_le_pos; [lra|]. apply Rlt_le, Rinv_0_lt_compat; lra.
    - apply (Rmult_le_reg_l Mr); [lra|]. rewrite HE. lra. }
  assert (Hhi : (V <= (1 + c) * ((1 + c) * E))%R).
  { apply Rle_trans with ((1 + c) * (Xr * rho))%R; [apply Hprod|].
    apply Rmult_le_compat_l; [lra|].
    replace ((1 + c) * E)%R with (Xr * ((1 + c) * (2048 / Mr)))%R
      by (unfold E; field; lra).
    apply Rmult_le_compat_l; [lra|apply Hratio]. }
  assert (Hlo : ((1 - c) * ((1 - c) * E) <= V)%R).
  { apply Rle_trans with ((1 - c) * (Xr * rho))%R; [|apply Hprod].
    apply Rmult_le_compat_l; [unfold c; lra|].
    replace ((1 - c) * E)%R with (Xr * ((1 - c) * (2048 / Mr)))%R
      by (unfold E; field; lra).
    apply Rmult_le_compat_l; [lra|apply Hratio]. }
  set (Zr := IZR z) in *.
  assert (Hup : (Mr * Zr <= 2048 * Xr + Mr * (4097 * c))%R).
  { rewrite <- HE, <- Rmult_plus_distr_l.
    apply Rmult_le_compat_l; [lra|]. unfold c in *. lra. }
  assert (Hdown : (2048 * Xr - Mr * (4096 * c) < Mr * (Zr + 1))%R).
  { rewrite <- HE. unfold Rminus.
    rewrite Ropp_mult_distr_r, <- Rmult_plus_distr_l.
    apply Rmult_lt_compat_l; [lra|]. unfold c in *. lra. }
  assert (Hsmall : (Mr * (4097 * c) < 1)%R) by (unfold c in *; lra).
  split.
  - destruct (Z_le_gt_dec (m * z) (2048 * x)) as [|Hgt]; [assumption|exfalso].
    assert (H : 2048 * x + 1 <= m * z) by lia.
    apply IZR_le in H. rewrite plus_IZR, !mult_IZR in H.
    fold Xr Mr Zr in H. lra.
  - destruct (Z_le_gt_dec (2048 * x) (m * (z + 1))) as [|Hgt]; [assumption|exfalso].
    assert (H : m * (z + 1) + 1 <= 2048 * x) by lia.
    apply IZR_le in H. rewrite plus_IZR, !mult_IZR, plus_IZR in H.
    fold Xr Mr Zr in H. unfold c in *. lra.
Qed.

End Binary64Facts.

(** ** Sanity checks of the embedding *)

Example temperature_is_one_tenth : int_truediv 1 10 = Ok temperature_0_1.
Proof. vm_compute. reflexivity. Qed.

Example b64encode_Man : b64encode Demo.pixels = "TWFu".
Proof. reflexivity. Qed.

Example b64encode_padding :
  b64encode [Byte.x4d] = "TQ==" /\ b64encode [Byte.x4d; Byte.x61] = "TWE=".
Proof. split; reflexivity. Qed.

Example run_answers :
  _run "plate.jpg" None
       (Demo.world (Ok (Demo.photo "RGB" (640, 480))) (Some "sk-test")
                   (Ok Demo.answer))
  = ([EvExists "plate.jpg"; EvPrint (Analyzing "plate.jpg");
      EvGetsize "plate.jpg"; EvPrint (FileSize 4242);
      EvImageOpen "plate.jpg";
      EvSave (Demo.photo "RGB" (640, 480)) "JPEG" 85;
      EvPrint (Encoded 4); EvPrint Sending; EvGetenv "OPENAI_API_KEY";
      EvCreate (OpenAI "sk-test") (vision_request default_prompt "TWFu");
      EvPrint Received; EvPrint (TokenUsage 321)],
     Ok "- banana: 120g (90% confidence)").
Proof. reflexivity. Qed.

Example run_empty_answer :
  outcome (_run "plate.jpg" None
             (Demo.world (Ok (Demo.photo "RGB" (640, 480))) (Some "sk-test")
                         (Ok (mkResponse [mkChoice (Some "")] None))))
  = Ok "No response received".
Proof. reflexivity. Qed.

(** ** Facts about text *)

Lemma starts_with_app (sub post : string) : starts_with sub (sub ++ post) = true.
Proof.
  induction sub as [|a sub IH]; simpl; [reflexivity|].
  rewrite Ascii.eqb_refl, IH. reflexivity.
Qed.

Lemma append_empty_r (s : string) : s ++ "" = s.
Proof. induction s as [|a s IH]; simpl; [|rewrite IH]; reflexivity. Qed.

Lemma contains_starts (sub s : string) :
  starts_with sub s = true -> contains sub s = true.
Proof. intros H. destruct s; simpl; rewrite H; reflexivity. Qed.

Lemma contains_app (pre sub post : string) :
  contains sub (pre ++ sub ++ post) = true.
Proof.
  induction pre as [|a pre IH].
  - change ("" ++ sub ++ post) with (sub ++ post).
    apply contains_starts, starts_with_app.
  - change (String a pre ++ sub ++ post) with (String a (pre ++ sub ++ post)).
    cbn [contains]. rewrite IH. apply orb_true_r.
Qed.

Lemma starts_with_split (sub s : string) :
  starts_with sub s = true -> exists post, s = sub ++ post.
Proof.
  revert s. induction sub as [|a sub IH]; intros s H; simpl in H.
  - exists s. reflexivity.
  - destruct s as [|b s]; [discriminate|].
    apply andb_true_iff in H. destruct H as [Hab Hs].
    apply Ascii.eqb_eq in Hab. subst b.
    destruct (IH s Hs) as [post ->]. exists post. reflexivity.
Qed.

Lemma contains_spec (sub s : string) :
  contains sub s = true <-> exists pre post, s = pre ++ sub ++ post.
Proof.
  split.
  - induction s as [|b s IH]; simpl; intros H.
    + rewrite orb_false_r in H. destruct (starts_with_split _ _ H) as [post E].
      exists "", post. exact E.
    + apply orb_true_iff in H. destruct H as [H|H].
      * destruct (starts_with_split _ _ H) as [post E]. exists "", post. exact E.
      * destruct (IH H) as (pre & post & ->). exists (String b pre), post. reflexivity.
  - intros (pre & post & ->). apply contains_app.
Qed.

(** ** Running the monad *)

Lemma bind_ok {A B} (m : M A) (f : A -> M B) (w : World) (t : list event) (a : A) :
  m w = (t, Ok a) -> bind m f w = (app t (fst (f a w)), snd (f a w)).
Proof. intros H. unfold bind. rewrite H. destruct (f a w). reflexivity. Qed.

Lemma bind_raise {A B} (m : M A) (f : A -> M B) (w : World) (t : list event) (e : exn) :
  m w = (t, Raise e) -> bind m f w = (t, Raise e).
Proof. intros H. unfold bind. rewrite H. reflexivity. Qed.

Lemma try_except_ok {A} (body : M A) (h : exn -> M A) (w : World) t a :
  body w = (t, Ok a) -> try_except body h w = (t, Ok a).
Proof. intros H. unfold try_except. rewrite H. reflexivity. Qed.

Lemma try_except_raise {A} (body : M A) (h : exn -> M A) (w : World) t e :
  body w = (t, Raise e) ->
  try_except body h w = (app t (fst (h e w)), snd (h e w)).
Proof. intros H. unfold try_except. rewrite H. destruct (h e w). reflexivity. Qed.

Lemma run_handler_returns (e : exn) (w : World) :
  run_handler e w =
  ([], Ok (match exn_cls e with
           | AuthenticationError => invalid_key_message
           | RateLimitError => rate_limit_message
           | _ => other_error_message e
           end)).
Proof. unfold run_handler. destruct (exn_cls e); reflexivity. Qed.

(** What [_run] yields once the body's outcome is known. *)
Lemma run_of_body_ok (p : string) (prompt : option string) (w : World) t s :
  run_body p prompt w = (t, Ok s) -> _run p prompt w = (t, Ok s).
Proof. apply try_except_ok. Qed.

Lemma run_of_body_raise (p : string) (prompt : option string) (w : World) t e :
  run_body p prompt w = (t, Raise e) ->
  _run p prompt w =
  (t, Ok (match exn_cls e with
          | AuthenticationError => invalid_key_message
          | RateLimitError => rate_limit_message
          | _ => other_error_message e
          end)).
Proof.
  intros H. unfold _run. rewrite (try_except_raise _ _ _ _ _ H).
  rewrite run_handler_returns. simpl. rewrite app_nil_r. reflexivity.
Qed.


(** ** A missing file *)

Lemma run_not_found (p : string) (prompt : option string) (w : World) :
  os_path_exists w p = false ->
  _run p prompt w = ([EvExists p], Ok (not_found_message p)).
Proof.
  intros H. apply run_of_body_ok.
  unfold run_body, bind, perform. rewrite H. reflexivity.
Qed.

(** ** An existing file *)

Lemma run_body_encode_fails (p : string) (prompt : option string) (w : World)
      (n : Z) (t : list event) (e : exn) :
  os_path_exists w p = true -> os_path_getsize w p = Ok n ->
  _encode_image p w = (t, Raise e) ->
  run_body p prompt w = (app (run_prologue p n) t, Raise e).
Proof.
  intros Hex Hsz Henc.
  unfold run_body, bind, perform, print. rewrite Hex. cbn [negb].
  rewrite Hsz, Henc. reflexivity.
Qed.

Lemma run_body_no_key (p : string) (prompt : option string) (w : World)
      (n : Z) (t : list event) (b64 : string) :
  os_path_exists w p = true -> os_path_getsize w p = Ok n ->
  _encode_image p w = (t, Ok b64) ->
  truthy (os_getenv w "OPENAI_API_KEY") = false ->
  run_body p prompt w =
  (app (run_prologue p n)
       (app t [EvPrint (Encoded (String.length b64)); EvPrint Sending;
               EvGetenv "OPENAI_API_KEY"]),
   Raise (mkExn ValueError missing_key_message)).
Proof.
  intros Hex Hsz Henc Hkey.
  unfold run_body, bind, perform, print, _get_openai_client, bind, perform, raise, ret.
  rewrite Hex. cbn [negb]. rewrite Hsz, Henc.
  destruct (os_getenv w "OPENAI_API_KEY") as [k|]; [rewrite Hkey|];
    cbn; rewrite ?app_nil_r; reflexivity.
Qed.

Lemma run_body_call_fails (p : string) (prompt : option string) (w : World)
      (n : Z) (t : list event) (b64 k : string) (e : exn) :
  os_path_exists w p = true -> os_path_getsize w p = Ok n ->
  _encode_image p w = (t, Ok b64) ->
  os_getenv w "OPENAI_API_KEY" = Some k -> truthy (Some k) = true ->
  chat_completions_create w (OpenAI k)
    (vision_request (effective_prompt prompt) b64) = Raise e ->
  run_body p prompt w =
  (app (run_prologue p n)
       (app t [EvPrint (Encoded (String.length b64)); EvPrint Sending;
               EvGetenv "OPENAI_API_KEY";
               EvCreate (OpenAI k) (vision_request (effective_prompt prompt) b64)]),
   Raise e).
Proof.
  intros Hex Hsz Henc Hkey Hk Hcall.
  unfold run_body, bind, perform, print, _get_openai_client, bind, perform, raise, ret.
  rewrite Hex. cbn [negb]. rewrite Hsz, Henc, Hkey, Hk. cbn [negb].
  fold (effective_prompt prompt). rewrite Hcall.
  cbn; rewrite ?app_nil_r; reflexivity.
Qed.

(** ** The size an oversized image is resized to *)

Lemma new_size_scale (wd ht : Z) (ratio : spec_float) (w' h' : Z) :
  int_truediv max_size (Z.max wd ht) = Ok ratio ->
  scale wd ratio = Ok w' -> scale ht ratio = Ok h' ->
  new_size (wd, ht) = Ok (w', h').
Proof.
  unfold new_size, scale. cbn [fst snd]. intros -> Hw Hh.
  destruct (int_mul_float wd ratio) as [fw|]; [|discriminate].
  rewrite Hw.
  destruct (int_mul_float ht ratio) as [fh|]; [|discriminate].
  rewrite Hh. reflexivity.
Qed.

Lemma scale_bounds (x m : Z) (q : positive) (e : Z) :
  0 <= x <= m -> 2048 < m < 2 ^ 31 ->
  2 ^ 52 <= Zpos q < 2 ^ 53 -> -104 <= e <= -52 ->
  Binary64.close_to (IZR (Zpos q) * Binary64.bpow e) (2048 / IZR m) ->
  exists x', scale x (S754_finite false q e) = Ok x' /\
             m * x' <= 2048 * x <= m * (x' + 1).
Proof.
  intros Hx Hm Hq He Hc.
  destruct (Z.eq_dec x 0) as [->|Hx0].
  - exists 0. split; [reflexivity|lia].
  - destruct (Binary64Facts.scaled_dimension x m q e ltac:(lia) Hm Hq He Hc)
      as (fx & x' & Hmul & Hint & Hb).
    exists x'. split; [|exact Hb].
    unfold scale. rewrite Hmul. exact Hint.
Qed.

Lemma new_size_bounds (wd ht : Z) :
  0 <= wd -> 0 <= ht -> 2048 < Z.max wd ht < 2 ^ 31 ->
  exists w' h',
    new_size (wd, ht) = Ok (w', h') /\
    Z.max wd ht * w' <= 2048 * wd <= Z.max wd ht * (w' + 1) /\
    Z.max wd ht * h' <= 2048 * ht <= Z.max wd ht * (h' + 1).
Proof.
  intros Hw Hh Hm.
  destruct (Binary64Facts.truediv_max_size_spec (Z.max wd ht) ltac:(lia))
    as (q & e & Hdiv & Hq & He & Hc).
  destruct (scale_bounds wd (Z.max wd ht) q e ltac:(lia) Hm Hq He Hc)
    as (w' & Hsw & Hbw).
  destruct (scale_bounds ht (Z.max wd ht) q e ltac:(lia) Hm Hq He Hc)
    as (h' & Hsh & Hbh).
  exists w', h'. split; [|split; assumption].
  apply (new_size_scale wd ht (S754_finite false q e)); assumption.
Qed.

Lemma truncated_quotient (m x x' : Z) :
  0 < m -> m * x' <= 2048 * x <= m * (x' + 1) ->
  (2048 * x) mod m <> 0 -> x' = 2048 * x / m.
Proof.
  intros Hm Hb Hnd.
  assert (Hne : 2048 * x <> m * (x' + 1)).
  { intros E. apply Hnd. rewrite E, Z.mul_comm. apply Z.mod_mul. lia. }
  apply (Z.div_unique_pos (2048 * x) m x' (2048 * x - m * x')); lia.
Qed.

Example new_size_3000_1000 : new_size (3000, 1000) = Ok (2048, 682).
Proof. vm_compute. reflexivity. Qed.

Example new_size_2215_1000 : new_size (2215, 1000) = Ok (2047, 924).
Proof. vm_compute. reflexivity. Qed.

Example new_size_4096_4096 : new_size (4096, 4096) = Ok (2048, 2048).
Proof. vm_compute. reflexivity. Qed.

(** ** The effects of the preprocessor *)

Ltac next_effect :=
  match goal with
  | |- context [Image_convert ?w ?i ?m] => destruct (Image_convert w i m)
  | |- context [Image_resize ?w ?i ?s ?f] => destruct (Image_resize w i s f)
  | |- context [Image_save ?w ?i ?f ?q] => destruct (Image_save w i f q)
  | |- context [Z.ltb max_size ?m] => destruct (Z.ltb max_size m) eqn:?
  | |- context [new_size ?s] => destruct (new_size s) eqn:?
  end.

Ltac effect_found :=
  first
    [ apply eff_open
    | apply eff_convert; assumption
    | apply eff_resize;
      [ unfold mode_after_convert;
        match goal with H : string_in _ _ = _ |- _ => rewrite H end; reflexivity
      | reflexivity
      | apply Z.ltb_lt; assumption
      | assumption ]
    | apply eff_save;
      [ unfold mode_after_convert;
        match goal with H : string_in _ _ = _ |- _ => rewrite H end; reflexivity
      | match goal with H : Z.ltb _ _ = _ |- _ => rewrite H end;
        cbn [size]; first [assumption | reflexivity] ] ].

Lemma encode_effects (w : World) (p : string) (img : Image) :
  Image_open w p = Ok img ->
  forall ev, In ev (trace_of (_encode_image p w)) -> encode_effect p img ev.
Proof.
  intros Hopen ev.
  unfold _encode_image, try_except, encode_image_body, bind, perform,
    convert, resize, lift, ret, raise, trace_of, bind, perform, ret.
  rewrite Hopen.
  destruct (string_in (mode img) ["RGBA"; "P"]) eqn:Hmode;
    repeat (cbn [fst snd app size mode]; next_effect);
    cbn [fst snd app In]; intros H;
    repeat (destruct H as [<-|H]; [effect_found|]);
    contradiction.
Qed.

Lemma convert_requested (w : World) (p : string) (img : Image) :
  Image_open w p = Ok img ->
  string_in (mode img) ["RGBA"; "P"] = true ->
  In (EvConvert img "RGB") (trace_of (_encode_image p w)).
Proof.
  intros Hopen Hmode.
  unfold _encode_image, try_except, encode_image_body, bind, perform,
    convert, resize, lift, ret, raise, trace_of, bind, perform, ret.
  rewrite Hopen, Hmode.
  repeat (cbn [fst snd app size mode]; next_effect);
    cbn [fst snd app In]; auto.
Qed.

Lemma resize_requested (w : World) (p : string) (img : Image) (sz : Z * Z) :
  Image_open w p = Ok img ->
  (string_in (mode img) ["RGBA"; "P"] = true ->
   exists px, Image_convert w img "RGB" = Ok px) ->
  max_size < Z.max (fst (size img)) (snd (size img)) ->
  new_size (size img) = Ok sz ->
  exists img1, In (EvResize img1 sz LANCZOS) (trace_of (_encode_image p w)).
Proof.
  intros Hopen Hconv Hbig Hns. apply Z.ltb_lt in Hbig.
  unfold _encode_image, try_except, encode_image_body, bind, perform,
    convert, resize, lift, ret, raise, trace_of, bind, perform, ret.
  rewrite Hopen.
  destruct (string_in (mode img) ["RGBA"; "P"]).
  - destruct (Hconv eq_refl) as [px ->]. cbn [fst snd app size mode].
    rewrite Hbig, Hns.
    repeat (cbn [fst snd app size mode]; next_effect);
      cbn [fst snd app In]; eexists; eauto.
  - cbn [fst snd app size mode]. rewrite Hbig, Hns.
    repeat (cbn [fst snd app size mode]; next_effect);
      cbn [fst snd app In]; eexists; eauto.
Qed.

(** * The claims *)

(** C1 (as stated, refuted).  With the key absent and the image file
    present and readable, [_run] does not raise: it returns the text of the
    general handler. *)
Lemma C1_missing_key_counterexample :
  os_getenv (Demo.world (Ok (Demo.photo "RGB" (640, 480))) None (Ok Demo.answer))
    "OPENAI_API_KEY" = None /\
  os_path_exists (Demo.world (Ok (Demo.photo "RGB" (640, 480))) None (Ok Demo.answer))
    "plate.jpg" = true /\
  outcome (_run "plate.jpg" None
             (Demo.world (Ok (Demo.photo "RGB" (640, 480))) None (Ok Demo.answer)))
    = Ok missing_key_text /\
  ~ (exists e,
       outcome (_run "plate.jpg" None
                  (Demo.world (Ok (Demo.photo "RGB" (640, 480))) None (Ok Demo.answer)))
       = Raise e).
Proof.
  split; [reflexivity|]. split; [reflexivity|]. split; [reflexivity|].
  intros [e H]. vm_compute in H. discriminate H.
Qed.

(** C1 (amended).  If the key is absent or empty at call time,
    [_get_openai_client] raises a [ValueError]; [_run], for an image file
    that exists, whose size can be read and that can be encoded, catches it
    and returns the text "Error analyzing image: OPENAI_API_KEY environment
    variable is required", which differs from the texts for an invalid key,
    an exhausted rate limit and a missing file. *)
Theorem C1_missing_key_returns_text
        (w : World) (p : string) (prompt : option string)
        (n : Z) (t : list event) (b64 : string) :
  truthy (os_getenv w "OPENAI_API_KEY") = false ->
  os_path_exists w p = true ->
  os_path_getsize w p = Ok n ->
  _encode_image p w = (t, Ok b64) ->
  outcome (_get_openai_client w) = Raise (mkExn ValueError missing_key_message) /\
  outcome (_run p prompt w) = Ok missing_key_text /\
  missing_key_text <> invalid_key_message /\
  missing_key_text <> rate_limit_message /\
  (forall p', missing_key_text <> not_found_message p').
Proof.
  intros Hkey Hex Hsz Henc.
  split; [|split; [|split; [|split]]].
  - unfold _get_openai_client, bind, perform, raise, ret, outcome.
    destruct (os_getenv w "OPENAI_API_KEY") as [k|]; [rewrite Hkey|]; reflexivity.
  - rewrite (run_of_body_raise _ _ _ _ _
               (run_body_no_key p prompt w n t b64 Hex Hsz Henc Hkey)).
    reflexivity.
  - discriminate.
  - discriminate.
  - intros p'. discriminate.
Qed.

Lemma C1_missing_key_returns_text_witness :
  outcome (_run "plate.jpg" None
             (Demo.world (Ok (Demo.photo "RGB" (640, 480))) None (Ok Demo.answer)))
    = Ok missing_key_text.
Proof.
  apply (C1_missing_key_returns_text
           (Demo.world (Ok (Demo.photo "RGB" (640, 480))) None (Ok Demo.answer))
           "plate.jpg" None 4242
           [EvImageOpen "plate.jpg"; EvSave (Demo.photo "RGB" (640, 480)) "JPEG" 85]
           "TWFu");
    reflexivity.
Defined.

(** C2 (as stated, refuted).  A 2215 x 1000 image is resized to
    2047 x 924: the longer side is not 2048, and 924 is not the integer
    nearest to 1000 * 2048 / 2215 = 924.6. *)
Lemma C2_resize_counterexample :
  new_size (2215, 1000) = Ok (2047, 924) /\
  Z.max 2047 924 <> 2048 /\
  ~ (Z.abs (2 * 2215 * 924 - 2 * 2048 * 1000) <= 2215) /\
  In (EvResize (Demo.photo "RGB" (2215, 1000)) (2047, 924) LANCZOS)
     (trace_of (_encode_image "plate.jpg"
                  (Demo.world (Ok (Demo.photo "RGB" (2215, 1000))) None
                              (Ok Demo.answer)))).
Proof.
  split; [vm_compute; reflexivity|].
  split; [vm_compute; discriminate|].
  split; [vm_compute; intros H; apply H; reflexivity|].
  vm_compute. right. left. reflexivity.
Qed.

(** C2 (amended).  For every input image whose sides are below 2^31 px and
    whose longer side [m] exceeds 2048 px, the preprocessor multiplies both
    sides by the same binary64 ratio [2048 / m] and truncates each product
    toward zero: each side [x] becomes [x'] with
    [2048 * x / m - 1 <= x' <= 2048 * x / m], and [x'] is the integer part
    of [2048 * x / m] whenever that quotient is not an integer.  So the
    longer side of the output is at most 2048 px and at least 2047 px.
    That size is the one requested from the LANCZOS resize (which is
    requested once the conversion, if any, succeeded) and the one of the
    image that is JPEG-encoded. *)
Theorem C2_oversized_image_scaled_down
        (w : World) (p : string) (img : Image) (wd ht : Z) :
  Image_open w p = Ok img ->
  size img = (wd, ht) ->
  0 <= wd -> 0 <= ht ->
  2048 < Z.max wd ht < 2 ^ 31 ->
  exists w' h',
    new_size (wd, ht) = Ok (w', h') /\
    Z.max wd ht * w' <= 2048 * wd <= Z.max wd ht * (w' + 1) /\
    Z.max wd ht * h' <= 2048 * ht <= Z.max wd ht * (h' + 1) /\
    ((2048 * wd) mod Z.max wd ht <> 0 -> w' = 2048 * wd / Z.max wd ht) /\
    ((2048 * ht) mod Z.max wd ht <> 0 -> h' = 2048 * ht / Z.max wd ht) /\
    2047 <= Z.max w' h' <= 2048 /\
    ((string_in (mode img) ["RGBA"; "P"] = true ->
      exists px, Image_convert w img "RGB" = Ok px) ->
     exists img1,
       In (EvResize img1 (w', h') LANCZOS) (trace_of (_encode_image p w))) /\
    (forall img1 sz f,
        In (EvResize img1 sz f) (trace_of (_encode_image p w)) ->
        sz = (w', h') /\ f = LANCZOS) /\
    (forall img2 fmt q,
        In (EvSave img2 fmt q) (trace_of (_encode_image p w)) ->
        size img2 = (w', h')).
Proof.
  intros Hopen Hsize Hwd Hht Hm.
  destruct (new_size_bounds wd ht Hwd Hht Hm) as (w' & h' & Hns & Hbw & Hbh).
  exists w', h'.
  split; [exact Hns|]. split; [exact Hbw|]. split; [exact Hbh|].
  split; [intros Hnd; apply truncated_quotient; [lia|exact Hbw|exact Hnd]|].
  split; [intros Hnd; apply truncated_quotient; [lia|exact Hbh|exact Hnd]|].
  split; [nia|].
  split; [|split].
  - intros Hconv.
    apply (resize_requested w p img (w', h') Hopen Hconv).
    + rewrite Hsize. cbn [fst snd]. unfold max_size. lia.
    + rewrite Hsize. exact Hns.
  - intros img1 sz f Hin.
    pose proof (encode_effects w p img Hopen _ Hin) as Heff.
    inversion Heff as [| |img1' sz' Hmode Hsz Hbig Hns'|]; subst.
    rewrite Hsize in Hns'. rewrite Hns in Hns'. inversion Hns'. auto.
  - intros img2 fmt q Hin.
    pose proof (encode_effects w p img Hopen _ Hin) as Heff.
    inversion Heff as [| | |img2' Hmode Hsz]; subst.
    rewrite Hsize in Hsz. cbn [fst snd] in Hsz.
    replace (Z.ltb max_size (Z.max wd ht)) with true in Hsz
      by (symmetry; apply Z.ltb_lt; unfold max_size; lia).
    rewrite Hns in Hsz. inversion Hsz. reflexivity.
Qed.

Lemma C2_oversized_image_scaled_down_witness :
  exists w' h',
    new_size (3000, 1000) = Ok (w', h') /\ 2047 <= Z.max w' h' <= 2048.
Proof.
  destruct (C2_oversized_image_scaled_down
              (Demo.world (Ok (Demo.photo "RGB" (3000, 1000))) None (Ok Demo.answer))
              "plate.jpg" (Demo.photo "RGB" (3000, 1000)) 3000 1000
              eq_refl eq_refl ltac:(lia) ltac:(lia) ltac:(simpl; lia))
    as (w' & h' & Hns & _ & _ & _ & _ & Hmax & _).
  exists w', h'. split; assumption.
Defined.

(** C3 (as stated, refuted).  A greyscale image with alpha (mode LA) and
    a greyscale image (mode L) are handed to the JPEG encoder as they are. *)
Lemma C3_conversion_counterexample :
  three_channel "LA" = false /\
  trace_of (_encode_image "plate.jpg"
              (Demo.world (Ok (Demo.photo "LA" (640, 480))) None (Ok Demo.answer)))
  = [EvImageOpen "plate.jpg"; EvSave (Demo.photo "LA" (640, 480)) "JPEG" 85] /\
  three_channel "L" = false /\
  trace_of (_encode_image "plate.jpg"
              (Demo.world (Ok (Demo.photo "L" (640, 480))) None (Ok Demo.answer)))
  = [EvImageOpen "plate.jpg"; EvSave (Demo.photo "L" (640, 480)) "JPEG" 85].
Proof. repeat split. Qed.

(** C3 (amended).  For every input image whose mode is RGBA or P, the
    preprocessor converts it to RGB, and every image it hands to the JPEG
    encoder is in mode RGB. *)
Theorem C3_rgba_and_palette_converted
        (w : World) (p : string) (img : Image) :
  Image_open w p = Ok img ->
  string_in (mode img) ["RGBA"; "P"] = true ->
  In (EvConvert img "RGB") (trace_of (_encode_image p w)) /\
  (forall img2 fmt q,
      In (EvSave img2 fmt q) (trace_of (_encode_image p w)) ->
      mode img2 = "RGB" /\ three_channel (mode img2) = true).
Proof.
  intros Hopen Hmode. split.
  - apply convert_requested; assumption.
  - intros img2 fmt q Hin.
    pose proof (encode_effects w p img Hopen _ Hin) as Heff.
    inversion Heff as [| | |img2' Hm Hsz]; subst.
    unfold mode_after_convert in Hm. rewrite Hmode in Hm.
    rewrite Hm. split; reflexivity.
Qed.

Lemma C3_rgba_and_palette_converted_witness :
  In (EvConvert (Demo.photo "RGBA" (640, 480)) "RGB")
     (trace_of (_encode_image "plate.jpg"
                  (Demo.world (Ok (Demo.photo "RGBA" (640, 480))) None
                              (Ok Demo.answer)))) /\
  In (EvSave (mkImage "RGB" (640, 480) Demo.pixels) "JPEG" 85)
     (trace_of (_encode_image "plate.jpg"
                  (Demo.world (Ok (Demo.photo "RGBA" (640, 480))) None
                              (Ok Demo.answer)))).
Proof.
  split.
  - apply (C3_rgba_and_palette_converted
             (Demo.world (Ok (Demo.photo "RGBA" (640, 480))) None (Ok Demo.answer))
             "plate.jpg" (Demo.photo "RGBA" (640, 480)) eq_refl eq_refl).
  - vm_compute. right. right. left. reflexivity.
Defined.

(** C6.  For every input image whose longer side is at most 2048 px, no
    resize is requested and the image handed to the JPEG encoder has the
    size of the input. *)
Theorem C6_small_image_keeps_size
        (w : World) (p : string) (img : Image) :
  Image_open w p = Ok img ->
  Z.max (fst (size img)) (snd (size img)) <= 2048 ->
  (forall img1 sz f, ~ In (EvResize img1 sz f) (trace_of (_encode_image p w))) /\
  (forall img2 fmt q,
      In (EvSave img2 fmt q) (trace_of (_encode_image p w)) ->
      size img2 = size img).
Proof.
  intros Hopen Hsmall. split.
  - intros img1 sz f Hin.
    pose proof (encode_effects w p img Hopen _ Hin) as Heff.
    inversion Heff as [| |img1' sz' Hmode Hsz Hbig Hns'|]; subst.
    unfold max_size in Hbig. lia.
  - intros img2 fmt q Hin.
    pose proof (encode_effects w p img Hopen _ Hin) as Heff.
    inversion Heff as [| | |img2' Hm Hsz]; subst.
    replace (Z.ltb max_size (Z.max (fst (size img)) (snd (size img))))
      with false in Hsz
      by (symmetry; apply Z.ltb_ge; unfold max_size; lia).
    exact Hsz.
Qed.

Lemma C6_small_image_keeps_size_witness :
  Z.max 2048 1536 <= 2048 /\
  In (EvSave (mkImage "RGB" (2048, 1536) Demo.pixels) "JPEG" 85)
     (trace_of (_encode_image "plate.jpg"
                  (Demo.world (Ok (Demo.photo "RGBA" (2048, 1536))) None
                              (Ok Demo.answer)))) /\
  size (mkImage "RGB" (2048, 1536) Demo.pixels)
  = size (Demo.photo "RGBA" (2048, 1536)).
Proof.
  split; [simpl; lia|].
  split; [vm_compute; right; right; left; reflexivity|].
  apply (proj2 (C6_small_image_keeps_size
                  (Demo.world (Ok (Demo.photo "RGBA" (2048, 1536))) None
                              (Ok Demo.answer))
                  "plate.jpg" (Demo.photo "RGBA" (2048, 1536)) eq_refl
                  ltac:(simpl; lia))
               (mkImage "RGB" (2048, 1536) Demo.pixels) "JPEG" 85).
  vm_compute. right. right. left. reflexivity.
Defined.

(** C4.  With the image file present and encoded and the key set, a
    failure of the model call is returned as text: an authentication
    failure, an exhausted rate limit and any other exception each have a
    text of their own, and nothing is raised. *)
Theorem C4_call_failure_returns_text
        (w : World) (p : string) (prompt : option string)
        (n : Z) (t : list event) (b64 k : string) (e : exn) :
  os_path_exists w p = true ->
  os_path_getsize w p = Ok n ->
  _encode_image p w = (t, Ok b64) ->
  os_getenv w "OPENAI_API_KEY" = Some k -> truthy (Some k) = true ->
  chat_completions_create w (OpenAI k)
    (vision_request (effective_prompt prompt) b64) = Raise e ->
  outcome (_run p prompt w) =
    Ok (match exn_cls e with
        | AuthenticationError =>
            "Error: Invalid OpenAI API key. Please check your OPENAI_API_KEY environment variable."
        | RateLimitError =>
            "Error: OpenAI API rate limit exceeded. Please try again later."
        | _ => "Error analyzing image: " ++ exn_str e
        end) /\
  invalid_key_message <> rate_limit_message /\
  (forall e', other_error_message e' <> invalid_key_message) /\
  (forall e', other_error_message e' <> rate_limit_message).
Proof.
  intros Hex Hsz Henc Hkey Hk Hcall.
  split; [|split; [|split]].
  - rewrite (run_of_body_raise _ _ _ _ _
               (run_body_call_fails p prompt w n t b64 k e
                  Hex Hsz Henc Hkey Hk Hcall)).
    reflexivity.
  - discriminate.
  - intros e'. discriminate.
  - intros e'. discriminate.
Qed.

Lemma C4_call_failure_returns_text_witness :
  outcome (_run "plate.jpg" None
             (Demo.world (Ok (Demo.photo "RGB" (640, 480))) (Some "sk-test")
                (Raise (mkExn AuthenticationError "Error code: 401"))))
  = Ok "Error: Invalid OpenAI API key. Please check your OPENAI_API_KEY environment variable."
  /\
  outcome (_run "plate.jpg" None
             (Demo.world (Ok (Demo.photo "RGB" (640, 480))) (Some "sk-test")
                (Raise (mkExn RateLimitError "Error code: 429"))))
  = Ok "Error: OpenAI API rate limit exceeded. Please try again later."
  /\
  outcome (_run "plate.jpg" None
             (Demo.world (Ok (Demo.photo "RGB" (640, 480))) (Some "sk-test")
                (Raise (mkExn (OtherException "APIConnectionError") "Connection error."))))
  = Ok "Error analyzing image: Connection error.".
Proof.
  split; [|split].
  - apply (C4_call_failure_returns_text
             (Demo.world (Ok (Demo.photo "RGB" (640, 480))) (Some "sk-test")
                (Raise (mkExn AuthenticationError "Error code: 401")))
             "plate.jpg" None 4242
             [EvImageOpen "plate.jpg"; EvSave (Demo.photo "RGB" (640, 480)) "JPEG" 85]
             "TWFu" "sk-test" (mkExn AuthenticationError "Error code: 401"));
      reflexivity.
  - apply (C4_call_failure_returns_text
             (Demo.world (Ok (Demo.photo "RGB" (640, 480))) (Some "sk-test")
                (Raise (mkExn RateLimitError "Error code: 429")))
             "plate.jpg" None 4242
             [EvImageOpen "plate.jpg"; EvSave (Demo.photo "RGB" (640, 480)) "JPEG" 85]
             "TWFu" "sk-test" (mkExn RateLimitError "Error code: 429"));
      reflexivity.
  - apply (C4_call_failure_returns_text
             (Demo.world (Ok (Demo.photo "RGB" (640, 480))) (Some "sk-test")
                (Raise (mkExn (OtherException "APIConnectionError") "Connection error.")))
             "plate.jpg" None 4242
             [EvImageOpen "plate.jpg"; EvSave (Demo.photo "RGB" (640, 480)) "JPEG" 85]
             "TWFu" "sk-test"
             (mkExn (OtherException "APIConnectionError") "Connection error."));
      reflexivity.
Defined.






(** The schema of the tool input declares another default prompt, which a
    caller that fills the schema's defaults passes on as a prompt of its
    own; it names neither the threshold nor the line format. *)
Remark schema_prompt_default_differs :
  VisionToolInput.prompt (VisionToolInput.make "plate.jpg" None) <> default_prompt /\
  truthy (Some (VisionToolInput.prompt (VisionToolInput.make "plate.jpg" None))) = true /\
  contains "90%" VisionToolInput.prompt_default = false.
Proof. split; [discriminate|split; reflexivity]. Qed.

(** C7.  For every path that does not reference an existing file, [_run]
    returns a text that contains the path and the words "not found"; it
    does not raise. *)
Theorem C7_missing_file_returns_text
        (w : World) (p : string) (prompt : option string) :
  os_path_exists w p = false ->
  exists s,
    outcome (_run p prompt w) = Ok s /\
    contains p s = true /\
    contains "not found" s = true.
Proof.
  intros H. exists (not_found_message p).
  rewrite (run_not_found p prompt w H).
  split; [reflexivity|split].
  - apply contains_spec. exists "Error: Image file not found at ", "".
    rewrite append_empty_r. reflexivity.
  - apply contains_spec. exists "Error: Image file ", (" at " ++ p). reflexivity.
Qed.

Lemma C7_missing_file_returns_text_witness :
  exists s,
    outcome (_run "missing.png" None
               (Demo.world (Ok (Demo.photo "RGB" (640, 480))) None (Ok Demo.answer)))
      = Ok s /\
    contains "missing.png" s = true /\
    contains "not found" s = true.
Proof.
  apply (C7_missing_file_returns_text
           (Demo.world (Ok (Demo.photo "RGB" (640, 480))) None (Ok Demo.answer))
           "missing.png" None).
  reflexivity.
Defined.

(** Failures of the imaging library inside [_encode_image]. *)
Lemma encode_body_open_fails (w : World) (p : string) (e : exn) :
  Image_open w p = Raise e ->
  encode_image_body p w = ([EvImageOpen p], Raise e).
Proof.
  intros H. unfold encode_image_body, bind, perform. rewrite H. reflexivity.
Qed.

Lemma encode_body_save_fails (w : World) (p : string) (img : Image) (e : exn) :
  Image_open w p = Ok img ->
  string_in (mode img) ["RGBA"; "P"] = false ->
  Z.max (fst (size img)) (snd (size img)) <= 2048 ->
  Image_save w img "JPEG" 85 = Raise e ->
  encode_image_body p w = ([EvImageOpen p; EvSave img "JPEG" 85], Raise e).
Proof.
  intros Hopen Hmode Hsmall Hsave.
  unfold encode_image_body, bind, perform, ret. rewrite Hopen, Hmode.
  replace (Z.ltb max_size (Z.max (fst (size img)) (snd (size img)))) with false
    by (symmetry; apply Z.ltb_ge; unfold max_size; lia).
  rewrite Hsave. reflexivity.
Qed.

(** C8.  Every exception raised inside the preprocessor leaves it as a
    plain exception "Failed to encode image: <description>", and [_run],
    for an existing file whose size can be read, returns it as the text
    "Error analyzing image: Failed to encode image: <description>". *)
Theorem C8_encoding_failure_returns_text
        (w : World) (p : string) (t : list event) (e : exn) :
  encode_image_body p w = (t, Raise e) ->
  _encode_image p w =
    (t, Raise (mkExn PlainException ("Failed to encode image: " ++ exn_str e))) /\
  (forall prompt n,
      os_path_exists w p = true ->
      os_path_getsize w p = Ok n ->
      outcome (_run p prompt w) =
        Ok ("Error analyzing image: Failed to encode image: " ++ exn_str e)).
Proof.
  intros Hbody.
  assert (Henc : _encode_image p w = (t, Raise (encode_failed e))).
  { unfold _encode_image. rewrite (try_except_raise _ _ _ _ _ Hbody).
    unfold raise. cbn [fst snd]. rewrite app_nil_r. reflexivity. }
  split; [exact Henc|].
  intros prompt n Hex Hsz.
  rewrite (run_of_body_raise _ _ _ _ _
             (run_body_encode_fails p prompt w n t _ Hex Hsz Henc)).
  reflexivity.
Qed.

Lemma C8_encoding_failure_returns_text_witness :
  outcome (_run "plate.jpg" None
             (Demo.world (Raise (mkExn (OtherException "UnidentifiedImageError")
                                       "cannot identify image file 'plate.jpg'"))
                         (Some "sk-test") (Ok Demo.answer)))
  = Ok "Error analyzing image: Failed to encode image: cannot identify image file 'plate.jpg'".
Proof.
  apply (proj2 (C8_encoding_failure_returns_text
                  (Demo.world (Raise (mkExn (OtherException "UnidentifiedImageError")
                                            "cannot identify image file 'plate.jpg'"))
                              (Some "sk-test") (Ok Demo.answer))
                  "plate.jpg" [EvImageOpen "plate.jpg"]
                  (mkExn (OtherException "UnidentifiedImageError")
                         "cannot identify image file 'plate.jpg'")
                  eq_refl) None 4242);
    reflexivity.
Defined.


(** C10.  The existence check comes first: for every path that does not
    exist, the only effect of [_run] is that check.  The credential is not
    read, the image is not opened, no request is sent, and the result is
    the same in every world in which the path does not exist. *)
Theorem C10_existence_check_comes_first
        (w : World) (p : string) (prompt : option string) :
  os_path_exists w p = false ->
  _run p prompt w = ([EvExists p], Ok (not_found_message p)) /\
  (forall name, ~ In (EvGetenv name) (trace_of (_run p prompt w))) /\
  (forall client req, ~ In (EvCreate client req) (trace_of (_run p prompt w))) /\
  (forall w', os_path_exists w' p = false -> _run p prompt w' = _run p prompt w).
Proof.
  intros H. rewrite (run_not_found p prompt w H).
  split; [reflexivity|]. split; [|split].
  - intros name [Hin|[]]. discriminate Hin.
  - intros client req [Hin|[]]. discriminate Hin.
  - intros w' H'. apply run_not_found. exact H'.
Qed.

Lemma C10_existence_check_comes_first_witness :
  _run "missing.png" None
       (Demo.world (Ok (Demo.photo "RGB" (640, 480))) None (Ok Demo.answer))
  = _run "missing.png" None
         (Demo.world (Ok (Demo.photo "RGB" (640, 480))) (Some "sk-test")
                     (Ok Demo.answer)).
Proof.
  apply (C10_existence_check_comes_first
           (Demo.world (Ok (Demo.photo "RGB" (640, 480))) (Some "sk-test")
                       (Ok Demo.answer))
           "missing.png" None eq_refl).
  reflexivity.
Defined.

(** * Further properties of the code *)

(** ** Every way [_run] can go *)

Lemma run_body_case (w : World) (p : string) (prompt : option string) :
  run_case w p prompt (run_body p prompt w).
Proof.
  destruct (os_path_exists w p) eqn:Hex.
  2:{ replace (run_body p prompt w) with ([EvExists p], Ok (not_found_message p)).
      - apply case_missing. exact Hex.
      - unfold run_body, bind, perform. rewrite Hex. reflexivity. }
  destruct (os_path_getsize w p) as [n|e] eqn:Hsz.
  2:{ replace (run_body p prompt w)
        with ([EvExists p; EvPrint (Analyzing p); EvGetsize p], @Raise string e).
      - apply case_getsize; assumption.
      - unfold run_body, bind, perform, print. rewrite Hex. cbn [negb].
        rewrite Hsz. reflexivity. }
  destruct (_encode_image p w) as [t [b64|e]] eqn:Henc.
  2:{ rewrite (run_body_encode_fails p prompt w n t e Hex Hsz Henc).
      apply case_encode; assumption. }
  destruct (truthy (os_getenv w "OPENAI_API_KEY")) eqn:Hkey.
  2:{ rewrite (run_body_no_key p prompt w n t b64 Hex Hsz Henc Hkey).
      apply case_no_key; assumption. }
  destruct (os_getenv w "OPENAI_API_KEY") as [k|] eqn:Hk; [|discriminate].
  destruct (chat_completions_create w (OpenAI k)
              (vision_request (effective_prompt prompt) b64)) as [r|e] eqn:Hcall.
  2:{ rewrite (run_body_call_fails p prompt w n t b64 k e Hex Hsz Henc Hk Hkey Hcall).
      apply (case_call w p prompt n t b64 k e); assumption. }
  destruct (choices r) as [|c rest] eqn:Hch.
  - replace (run_body p prompt w)
      with (app (run_prologue p n)
              (app t (app (run_request_effects b64)
                        [EvCreate (OpenAI k)
                           (vision_request (effective_prompt prompt) b64)])),
            @Raise string (mkExn IndexError "list index out of range")).
    + apply (case_no_choice w p prompt n t b64 k r); assumption.
    + unfold run_body, bind, perform, print, _get_openai_client, bind, perform,
        raise, ret, lift, first_choice.
      rewrite Hex. cbn [negb]. rewrite Hsz, Henc, Hk, Hkey. cbn [negb].
      fold (effective_prompt prompt). rewrite Hcall, Hch.
      cbn; rewrite ?app_nil_r; reflexivity.
  - replace (run_body p prompt w)
      with (app (run_prologue p n)
              (app t (app (run_request_effects b64)
                        (EvCreate (OpenAI k)
                           (vision_request (effective_prompt prompt) b64)
                         :: EvPrint Received :: usage_line r))),
            Ok (or_else (message_content c) no_response)).
    + apply (case_answer w p prompt n t b64 k r c rest); assumption.
    + unfold run_body, bind, perform, print, _get_openai_client, bind, perform,
        raise, ret, lift, first_choice, usage_line.
      rewrite Hex. cbn [negb]. rewrite Hsz, Henc, Hk, Hkey. cbn [negb].
      fold (effective_prompt prompt). rewrite Hcall, Hch.
      destruct (usage r); cbn; rewrite ?app_nil_r; reflexivity.
Qed.

Lemma run_from_body (p : string) (prompt : option string) (w : World) :
  _run p prompt w =
  (trace_of (run_body p prompt w), Ok (text_of (outcome (run_body p prompt w)))).
Proof.
  destruct (run_body p prompt w) as [t [s|e]] eqn:Hbody.
  - rewrite (run_of_body_ok _ _ _ _ _ Hbody). reflexivity.
  - rewrite (run_of_body_raise _ _ _ _ _ Hbody). reflexivity.
Qed.

(** [_run] seen through the cases of its body. *)
Lemma run_by_cases (w : World) (p : string) (prompt : option string)
      (P : list event -> string -> Prop) :
  (forall t r, run_case w p prompt (t, r) -> P t (text_of r)) ->
  P (trace_of (_run p prompt w)) 
    (match outcome (_run p prompt w) with Ok s => s | Raise _ => "" end).
Proof.
  intros H. rewrite run_from_body. cbn [trace_of outcome fst snd].
  apply H. pose proof (run_body_case w p prompt) as Hc.
  destruct (run_body p prompt w) as [t r]. exact Hc.
Qed.

(** ** The effects of [_encode_image], whatever the image *)

Ltac next_effect_eq :=
  match goal with
  | |- context [Image_open ?w ?p] => destruct (Image_open w p) eqn:?
  | |- context [Image_convert ?w ?i ?m] => destruct (Image_convert w i m) eqn:?
  | |- context [Image_resize ?w ?i ?s ?f] => destruct (Image_resize w i s f) eqn:?
  | |- context [Image_save ?w ?i ?f ?q] => destruct (Image_save w i f q) eqn:?
  | |- context [Z.ltb max_size ?m] => destruct (Z.ltb max_size m) eqn:?
  | |- context [new_size ?s] => destruct (new_size s) eqn:?
  | |- context [string_in ?m ?l] => destruct (string_in m l) eqn:?
  end.

Ltac run_encode :=
  unfold _encode_image, try_except, encode_image_body, bind, perform,
    convert, resize, lift, ret, raise, trace_of, outcome, bind, perform, ret;
  repeat (cbn [fst snd app size mode]; next_effect_eq);
  cbn [fst snd app].

Lemma encode_counts (w : World) (p : string) :
  occurrences is_open (trace_of (_encode_image p w)) = 1%nat /\
  (occurrences is_save (trace_of (_encode_image p w)) <= 1)%nat /\
  forall ev, In ev (trace_of (_encode_image p w)) -> is_imaging ev = true.
Proof.
  unfold occurrences. run_encode; cbn [filter is_open is_save List.length];
    (split; [reflexivity|split; [lia|]]);
    cbn [In]; intros ev H;
    repeat (destruct H as [<-|H]; [reflexivity|]); contradiction.
Qed.

Lemma encode_ok_inv (w : World) (p : string) (t : list event) (s : string) :
  _encode_image p w = (t, Ok s) ->
  exists img2 bytes,
    In (EvSave img2 "JPEG" 85) t /\
    Image_save w img2 "JPEG" 85 = Ok bytes /\
    s = b64encode bytes.
Proof.
  run_encode; intros H; inversion H; subst;
    eexists; eexists; (split; [|split; [eassumption|reflexivity]]);
    cbn [In]; auto 10.
Qed.

Lemma encode_saves_jpeg (w : World) (p : string) (img : Image)
      (fmt : string) (q : Z) :
  In (EvSave img fmt q) (trace_of (_encode_image p w)) ->
  fmt = "JPEG" /\ q = 85.
Proof.
  run_encode; cbn [In]; intros H;
    repeat (destruct H as [H|H]; [inversion H; subst; auto|]); contradiction.
Qed.

Lemma encode_convert_inv (w : World) (p : string) (i : Image) (m : string) :
  In (EvConvert i m) (trace_of (_encode_image p w)) ->
  Image_open w p = Ok i /\ string_in (mode i) ["RGBA"; "P"] = true /\ m = "RGB".
Proof.
  intros Hin. destruct (Image_open w p) as [img|e] eqn:Hopen.
  - pose proof (encode_effects w p img Hopen _ Hin) as Heff.
    inversion Heff; subst. auto.
  - exfalso. revert Hin.
    unfold _encode_image, try_except, trace_of.
    rewrite (encode_body_open_fails w p e Hopen). cbn.
    intros [H|[]]. discriminate H.
Qed.

(** ** Counting effects *)

Lemma occurrences_app (kind : event -> bool) (a b : list event) :
  occurrences kind (app a b) = (occurrences kind a + occurrences kind b)%nat.
Proof. unfold occurrences. rewrite filter_app, length_app. reflexivity. Qed.

Lemma occurrences_none (kind : event -> bool) (t : list event) :
  (forall ev, In ev t -> kind ev = false) -> occurrences kind t = 0%nat.
Proof.
  unfold occurrences. induction t as [|a t IH]; intros H; [reflexivity|].
  cbn [filter]. rewrite (H a (or_introl eq_refl)).
  apply IH. intros ev Hin. apply H. right. exact Hin.
Qed.

Lemma encode_trace_of (w : World) (p : string) (t : list event) (r : result string) :
  _encode_image p w = (t, r) -> t = trace_of (_encode_image p w).
Proof. intros H. rewrite H. reflexivity. Qed.

Lemma encode_no_other_effects (w : World) (p : string) (kind : event -> bool) :
  (forall ev, is_imaging ev = true -> kind ev = false) ->
  occurrences kind (trace_of (_encode_image p w)) = 0%nat.
Proof.
  intros H. apply occurrences_none. intros ev Hin.
  apply H. apply (proj2 (proj2 (encode_counts w p))). exact Hin.
Qed.

Lemma imaging_not_create (ev : event) : is_imaging ev = true -> is_create ev = false.
Proof. destruct ev; simpl; congruence. Qed.

Lemma imaging_not_getenv (ev : event) : is_imaging ev = true -> is_getenv ev = false.
Proof. destruct ev; simpl; congruence. Qed.

Ltac by_run_case w p prompt :=
  let Hc := fresh "Hc" in
  let t := fresh "t" in
  let r := fresh "r" in
  rewrite ?run_from_body in *; cbn [trace_of outcome fst snd] in *;
  pose proof (run_body_case w p prompt) as Hc;
  destruct (run_body p prompt w) as [t r];
  inversion Hc; subst; clear Hc;
  cbn [trace_of outcome fst snd text_of] in *.

(** Membership in a log, one event at a time. *)
Ltac split_in H :=
  match type of H with
  | In _ [] => destruct H
  | In _ (run_prologue _ _) => unfold run_prologue in H; split_in H
  | In _ (run_request_effects _) => unfold run_request_effects in H; split_in H
  | In _ (_ :: _) =>
      let H1 := fresh "Hev" in
      destruct H as [H1|H]; [try discriminate H1 | split_in H]
  | In _ (_ ++ _)%list =>
      let H1 := fresh "Hin" in
      apply in_app_or in H; destruct H as [H1|H]; [split_in H1 | split_in H]
  | _ => idtac
  end.

(** Where a request to the model API comes from. *)
Lemma run_request_origin (w : World) (p : string) (prompt : option string)
      (c : Client) (req : Request) :
  In (EvCreate c req) (trace_of (_run p prompt w)) ->
  exists n t b64,
    os_path_exists w p = true /\
    os_path_getsize w p = Ok n /\
    _encode_image p w = (t, Ok b64) /\
    os_getenv w "OPENAI_API_KEY" = Some (api_key c) /\
    truthy (Some (api_key c)) = true /\
    req = vision_request (effective_prompt prompt) b64.
Proof.
  intros Hin.
  assert (Henc : forall t r, _encode_image p w = (t, r) -> ~ In (EvCreate c req) t).
  { intros t r Ht Hc. rewrite (encode_trace_of w p t r Ht) in Hc.
    apply (proj2 (proj2 (encode_counts w p))) in Hc. discriminate Hc. }
  by_run_case w p prompt;
    try (unfold usage_line in Hin; destruct (usage r0));
    cbn [run_prologue run_request_effects app] in Hin;
    split_in Hin;
    try (exfalso; eapply Henc; eassumption);
    match goal with
    | H : EvCreate _ _ = EvCreate _ _ |- _ =>
        inversion H; subst; eexists; eexists; eexists; eauto 10
    end.
Qed.

Lemma occurrences_cons (kind : event -> bool) (a : event) (t : list event) :
  occurrences kind (a :: t) =
  ((if kind a then 1 else 0) + occurrences kind t)%nat.
Proof. unfold occurrences. cbn [filter]. destruct (kind a); reflexivity. Qed.

Lemma encode_occurrences (w : World) (p : string) (t : list event) (r : result string) :
  _encode_image p w = (t, r) ->
  occurrences is_create t = 0%nat /\ occurrences is_getenv t = 0%nat /\
  occurrences is_open t = 1%nat /\ (occurrences is_save t <= 1)%nat.
Proof.
  intros H. rewrite (encode_trace_of w p t r H).
  split; [apply encode_no_other_effects, imaging_not_create|].
  split; [apply encode_no_other_effects, imaging_not_getenv|].
  split; apply (encode_counts w p).
Qed.

(** ** The answer of the model *)

(** X1.  When the model call succeeds, [_run] returns the content of the
    first choice of the response, and the text "No response received" when
    that content is missing or empty; the other choices are not looked at. *)
Theorem X1_answer_or_fallback
        (w : World) (p : string) (prompt : option string) (n : Z)
        (t : list event) (b64 k : string) (r : Response)
        (c : Choice) (rest : list Choice) :
  os_path_exists w p = true ->
  os_path_getsize w p = Ok n ->
  _encode_image p w = (t, Ok b64) ->
  os_getenv w "OPENAI_API_KEY" = Some k -> truthy (Some k) = true ->
  chat_completions_create w (OpenAI k)
    (vision_request (effective_prompt prompt) b64) = Ok r ->
  choices r = c :: rest ->
  outcome (_run p prompt w) =
    Ok (match message_content c with
        | None => "No response received"
        | Some "" => "No response received"
        | Some s => s
        end).
Proof.
  intros Hex Hsz Henc Hkey Hk Hcall Hch.
  by_run_case w p prompt; try congruence.
  match goal with
  | H : choices ?r' = ?c' :: _ |- _ =>
      assert (r' = r) by congruence; subst r';
      assert (c' = c) by congruence; subst c'
  end.
  unfold or_else, no_response. destruct (message_content c) as [[|a s]|]; reflexivity.
Qed.

Lemma X1_answer_or_fallback_witness :
  outcome (_run "plate.jpg" None
             (Demo.world (Ok (Demo.photo "RGB" (640, 480))) (Some "sk-test")
                (Ok (mkResponse [mkChoice None; mkChoice (Some "- rice: 200g")]
                                None))))
  = Ok "No response received".
Proof.
  apply (X1_answer_or_fallback
           (Demo.world (Ok (Demo.photo "RGB" (640, 480))) (Some "sk-test")
              (Ok (mkResponse [mkChoice None; mkChoice (Some "- rice: 200g")] None)))
           "plate.jpg" None 4242
           [EvImageOpen "plate.jpg"; EvSave (Demo.photo "RGB" (640, 480)) "JPEG" 85]
           "TWFu" "sk-test"
           (mkResponse [mkChoice None; mkChoice (Some "- rice: 200g")] None)
           (mkChoice None) [mkChoice (Some "- rice: 200g")]);
    reflexivity.
Defined.

(** X2.  A response without any choice does not make [_run] fail: the
    index error of [choices[0]] is returned as the text "Error analyzing
    image: list index out of range". *)
Theorem X2_no_choice_returns_text
        (w : World) (p : string) (prompt : option string) (n : Z)
        (t : list event) (b64 k : string) (r : Response) :
  os_path_exists w p = true ->
  os_path_getsize w p = Ok n ->
  _encode_image p w = (t, Ok b64) ->
  os_getenv w "OPENAI_API_KEY" = Some k -> truthy (Some k) = true ->
  chat_completions_create w (OpenAI k)
    (vision_request (effective_prompt prompt) b64) = Ok r ->
  choices r = [] ->
  outcome (_run p prompt w) = Ok "Error analyzing image: list index out of range".
Proof.
  intros Hex Hsz Henc Hkey Hk Hcall Hch.
  by_run_case w p prompt; try congruence. reflexivity.
Qed.

Lemma X2_no_choice_returns_text_witness :
  outcome (_run "plate.jpg" None
             (Demo.world (Ok (Demo.photo "RGB" (640, 480))) (Some "sk-test")
                (Ok (mkResponse [] None))))
  = Ok "Error analyzing image: list index out of range".
Proof.
  apply (X2_no_choice_returns_text
           (Demo.world (Ok (Demo.photo "RGB" (640, 480))) (Some "sk-test")
              (Ok (mkResponse [] None)))
           "plate.jpg" None 4242
           [EvImageOpen "plate.jpg"; EvSave (Demo.photo "RGB" (640, 480)) "JPEG" 85]
           "TWFu" "sk-test" (mkResponse [] None));
    reflexivity.
Defined.

(** ** The request *)





(** X5.  The model API is called only with a key: the client of every
    request of a run holds the value of OPENAI_API_KEY in the environment,
    and that value is not empty. *)
Theorem X5_request_needs_key
        (w : World) (p : string) (prompt : option string)
        (c : Client) (req : Request) :
  In (EvCreate c req) (trace_of (_run p prompt w)) ->
  os_getenv w "OPENAI_API_KEY" = Some (api_key c) /\ api_key c <> "".
Proof.
  intros Hin.
  destruct (run_request_origin w p prompt c req Hin)
    as (n & t & b64 & _ & _ & _ & Hkey & Hk & _).
  split; [exact Hkey|]. intros E. rewrite E in Hk. discriminate Hk.
Qed.

Lemma X5_request_needs_key_witness :
  os_getenv (Demo.world (Ok (Demo.photo "RGB" (640, 480))) (Some "sk-test")
                        (Ok Demo.answer)) "OPENAI_API_KEY"
  = Some "sk-test" /\ "sk-test" <> "".
Proof.
  apply (X5_request_needs_key
           (Demo.world (Ok (Demo.photo "RGB" (640, 480))) (Some "sk-test")
                       (Ok Demo.answer))
           "plate.jpg" None (OpenAI "sk-test")
           (vision_request default_prompt "TWFu")).
  vm_compute. do 9 right. left. reflexivity.
Defined.

(** X6.  One run of [_run] opens the image at most once, encodes it at
    most once, reads the credential at most once and sends at most one
    request: nothing is retried. *)
Theorem X6_nothing_is_retried
        (w : World) (p : string) (prompt : option string) :
  (occurrences is_open (trace_of (_run p prompt w)) <= 1)%nat /\
  (occurrences is_save (trace_of (_run p prompt w)) <= 1)%nat /\
  (occurrences is_getenv (trace_of (_run p prompt w)) <= 1)%nat /\
  (occurrences is_create (trace_of (_run p prompt w)) <= 1)%nat.
Proof.
  by_run_case w p prompt;
    try match goal with
        | H : _encode_image _ _ = _ |- _ =>
            destruct (encode_occurrences _ _ _ _ H) as (Hc & Hg & Ho & Hs)
        end;
    unfold run_prologue, run_request_effects, usage_line;
    try match goal with |- context [usage ?r] => destruct (usage r) end;
    repeat rewrite ?occurrences_app, ?occurrences_cons;
    cbn [is_open is_save is_getenv is_create];
    change (occurrences is_open []) with 0%nat;
    change (occurrences is_save []) with 0%nat;
    change (occurrences is_getenv []) with 0%nat;
    change (occurrences is_create []) with 0%nat;
    lia.
Qed.

(** X7.  When the image cannot be encoded, the run stops there: the
    credential is not read and no request is sent. *)
Theorem X7_encoding_failure_stops_the_run
        (w : World) (p : string) (prompt : option string)
        (t : list event) (e : exn) :
  _encode_image p w = (t, Raise e) ->
  occurrences is_getenv (trace_of (_run p prompt w)) = 0%nat /\
  occurrences is_create (trace_of (_run p prompt w)) = 0%nat.
Proof.
  intros Henc.
  by_run_case w p prompt; try congruence;
    try match goal with
        | H : _encode_image _ _ = _ |- _ =>
            destruct (encode_occurrences _ _ _ _ H) as (Hc & Hg & Ho & Hs)
        end;
    unfold run_prologue;
    repeat rewrite ?occurrences_app, ?occurrences_cons;
    cbn [is_getenv is_create];
    change (occurrences is_getenv []) with 0%nat;
    change (occurrences is_create []) with 0%nat;
    lia.
Qed.

Lemma X7_encoding_failure_stops_the_run_witness :
  occurrences is_getenv
    (trace_of (_run "plate.jpg" None
                 (Demo.world (Raise (mkExn OSError "broken data stream"))
                             (Some "sk-test") (Ok Demo.answer)))) = 0%nat.
Proof.
  apply (proj1 (X7_encoding_failure_stops_the_run
                  (Demo.world (Raise (mkExn OSError "broken data stream"))
                              (Some "sk-test") (Ok Demo.answer))
                  "plate.jpg" None [EvImageOpen "plate.jpg"]
                  (mkExn PlainException "Failed to encode image: broken data stream")
                  eq_refl)).
Defined.

(** X8.  When the size of an existing file cannot be read, [_run] returns
    the text of the handler for that exception; the image is not opened,
    the credential is not read and no request is sent. *)
Theorem X8_unreadable_size_returns_text
        (w : World) (p : string) (prompt : option string) (e : exn) :
  os_path_exists w p = true ->
  os_path_getsize w p = Raise e ->
  _run p prompt w =
    ([EvExists p; EvPrint (Analyzing p); EvGetsize p], Ok (handler_text e)).
Proof.
  intros Hex Hsz. by_run_case w p prompt; congruence.
Qed.

Lemma X8_unreadable_size_returns_text_witness :
  outcome (_run "plate.jpg" None
             (mkWorld (fun _ => true)
                      (fun _ => Raise (mkExn OSError "[Errno 13] Permission denied: 'plate.jpg'"))
                      (fun _ => None) (fun _ => Ok (Demo.photo "RGB" (1, 1)))
                      (fun _ _ => Ok []) (fun _ _ _ => Ok [])
                      (fun _ _ _ => Ok []) (fun _ _ => Ok Demo.answer)))
  = Ok "Error analyzing image: [Errno 13] Permission denied: 'plate.jpg'".
Proof.
  rewrite (X8_unreadable_size_returns_text
             (mkWorld (fun _ => true)
                      (fun _ => Raise (mkExn OSError "[Errno 13] Permission denied: 'plate.jpg'"))
                      (fun _ => None) (fun _ => Ok (Demo.photo "RGB" (1, 1)))
                      (fun _ _ => Ok []) (fun _ _ _ => Ok [])
                      (fun _ _ _ => Ok []) (fun _ _ => Ok Demo.answer))
             "plate.jpg" None
             (mkExn OSError "[Errno 13] Permission denied: 'plate.jpg'")
             eq_refl eq_refl).
  reflexivity.
Defined.

(** X9.  Every request of a run has the same shape: model gpt-4o-mini, at
    most 1000 tokens, temperature 0.1 and one user message made of the
    prompt and of a data URI that holds, in base64, the bytes the JPEG
    encoder returned. *)
Theorem X9_request_shape
        (w : World) (p : string) (prompt : option string)
        (c : Client) (req : Request) :
  In (EvCreate c req) (trace_of (_run p prompt w)) ->
  exists img bytes,
    Image_save w img "JPEG" 85 = Ok bytes /\
    req = mkRequest "gpt-4o-mini"
            [mkMessage "user"
               [TextPart (effective_prompt prompt);
                ImageUrlPart ("data:image/jpeg;base64," ++ b64encode bytes)]]
            1000 temperature_0_1.
Proof.
  intros Hin.
  destruct (run_request_origin w p prompt c req Hin)
    as (n & t & b64 & _ & _ & Henc & _ & _ & ->).
  destruct (encode_ok_inv w p t b64 Henc) as (img & bytes & _ & Hsave & ->).
  exists img, bytes. split; [exact Hsave|reflexivity].
Qed.

Lemma X9_request_shape_witness :
  exists img bytes,
    Image_save (Demo.world (Ok (Demo.photo "RGB" (640, 480))) (Some "sk-test")
                           (Ok Demo.answer)) img "JPEG" 85 = Ok bytes /\
    vision_request default_prompt "TWFu"
    = mkRequest "gpt-4o-mini"
        [mkMessage "user"
           [TextPart default_prompt;
            ImageUrlPart ("data:image/jpeg;base64," ++ b64encode bytes)]]
        1000 temperature_0_1.
Proof.
  apply (X9_request_shape
           (Demo.world (Ok (Demo.photo "RGB" (640, 480))) (Some "sk-test")
                       (Ok Demo.answer))
           "plate.jpg" None (OpenAI "sk-test")
           (vision_request default_prompt "TWFu")).
  vm_compute. do 9 right. left. reflexivity.
Defined.

(** X10.  [_run] never returns the empty string: the result is an error
    text, the fallback text or a non-empty answer of the model. *)
Theorem X10_result_is_never_empty
        (w : World) (p : string) (prompt : option string) :
  outcome (_run p prompt w) <> Ok "".
Proof.
  by_run_case w p prompt; intros E; inversion E as [E'];
    try discriminate E';
    unfold handler_text in E';
    try match goal with
        | H : context [exn_cls ?e] |- _ => destruct (exn_cls e)
        end;
    try discriminate E'.
  unfold or_else, no_response in E'.
  destruct (message_content c) as [[|a s]|]; discriminate E'.
Qed.

(** ** The preprocessor *)

(** X11.  When [_encode_image] returns, its result is the base64 text of
    the bytes the JPEG encoder produced.  The image is encoded at most
    once, and never in another format or at another quality than JPEG at
    85. *)
Theorem X11_encode_returns_base64_of_jpeg
        (w : World) (p : string) (t : list event) (s : string) :
  _encode_image p w = (t, Ok s) ->
  (exists img bytes,
      In (EvSave img "JPEG" 85) t /\
      Image_save w img "JPEG" 85 = Ok bytes /\
      s = b64encode bytes) /\
  (forall img fmt q, In (EvSave img fmt q) t -> fmt = "JPEG" /\ q = 85) /\
  (occurrences is_save t <= 1)%nat.
Proof.
  intros H. split; [exact (encode_ok_inv w p t s H)|]. split.
  - intros img fmt q Hin. rewrite (encode_trace_of w p t _ H) in Hin.
    exact (encode_saves_jpeg w p img fmt q Hin).
  - apply (encode_occurrences w p t _ H).
Qed.

Lemma X11_encode_returns_base64_of_jpeg_witness :
  exists img bytes,
    In (EvSave img "JPEG" 85)
       [EvImageOpen "plate.jpg"; EvSave (Demo.photo "RGB" (640, 480)) "JPEG" 85] /\
    Image_save (Demo.world (Ok (Demo.photo "RGB" (640, 480))) None (Ok Demo.answer))
               img "JPEG" 85 = Ok bytes /\
    "TWFu" = b64encode bytes.
Proof.
  apply (proj1 (X11_encode_returns_base64_of_jpeg
                  (Demo.world (Ok (Demo.photo "RGB" (640, 480))) None (Ok Demo.answer))
                  "plate.jpg"
                  [EvImageOpen "plate.jpg"; EvSave (Demo.photo "RGB" (640, 480)) "JPEG" 85]
                  "TWFu" eq_refl)).
Defined.

(** X12.  The only conversion [_encode_image] ever asks for is the one of
    the opened image to RGB, and only when its mode is RGBA or P: images
    in any other mode are not converted. *)
Theorem X12_only_rgba_and_palette_are_converted
        (w : World) (p : string) (i : Image) (m : string) :
  In (EvConvert i m) (trace_of (_encode_image p w)) ->
  Image_open w p = Ok i /\ (mode i = "RGBA" \/ mode i = "P") /\ m = "RGB".
Proof.
  intros Hin.
  destruct (encode_convert_inv w p i m Hin) as (Hopen & Hmode & Hm).
  split; [exact Hopen|split; [|exact Hm]].
  unfold string_in in Hmode. cbn [existsb] in Hmode.
  apply orb_true_iff in Hmode. destruct Hmode as [H|H].
  - left. apply String.eqb_eq. exact H.
  - apply orb_true_iff in H. destruct H as [H|H]; [|discriminate H].
    right. apply String.eqb_eq. exact H.
Qed.

Lemma X12_only_rgba_and_palette_are_converted_witness :
  Image_open (Demo.world (Ok (Demo.photo "P" (640, 480))) None (Ok Demo.answer))
             "plate.jpg" = Ok (Demo.photo "P" (640, 480)) /\
  (mode (Demo.photo "P" (640, 480)) = "RGBA" \/ mode (Demo.photo "P" (640, 480)) = "P") /\
  "RGB" = "RGB".
Proof.
  apply (X12_only_rgba_and_palette_are_converted
           (Demo.world (Ok (Demo.photo "P" (640, 480))) None (Ok Demo.answer))
           "plate.jpg" (Demo.photo "P" (640, 480)) "RGB").
  vm_compute. right. left. reflexivity.
Defined.

(** ** The size after the resize *)

Lemma scale_zero_inv (ratio : spec_float) (x' : Z) :
  scale 0 ratio = Ok x' -> x' = 0.
Proof.
  unfold scale, int_mul_float, float_of_int. cbn [binary_normalize].
  destruct ratio as [s|s| |s m e]; cbn [SFmul int_of_float];
    intros H; inversion H; reflexivity.
Qed.

Lemma new_size_inv (wd ht w' h' : Z) :
  new_size (wd, ht) = Ok (w', h') ->
  exists ratio, scale wd ratio = Ok w' /\ scale ht ratio = Ok h'.
Proof.
  unfold new_size, scale. cbn [fst snd].
  destruct (int_truediv max_size (Z.max wd ht)) as [ratio|]; [|discriminate].
  destruct (int_mul_float wd ratio) as [fw|] eqn:E1; [|discriminate].
  destruct (int_of_float fw) as [a|] eqn:E2; [|discriminate].
  destruct (int_mul_float ht ratio) as [fh|] eqn:E3; [|discriminate].
  destruct (int_of_float fh) as [b|] eqn:E4; [|discriminate].
  intros H. inversion H; subst. exists ratio.
  rewrite E1, E3. split; assumption.
Qed.

(** What every result of [new_size] satisfies, for an oversized image. *)
Lemma new_size_sides (wd ht w' h' : Z) :
  0 <= wd -> 0 <= ht -> 2048 < Z.max wd ht < 2 ^ 31 ->
  new_size (wd, ht) = Ok (w', h') ->
  (Z.max wd ht * w' <= 2048 * wd <= Z.max wd ht * (w' + 1)) /\
  (Z.max wd ht * h' <= 2048 * ht <= Z.max wd ht * (h' + 1)) /\
  0 <= w' /\ 0 <= h' /\ (wd = ht -> w' = h').
Proof.
  intros Hwd Hht Hm Hns.
  destruct (new_size_bounds wd ht Hwd Hht Hm) as (w0 & h0 & Hns0 & Hbw & Hbh).
  rewrite Hns in Hns0. inversion Hns0; subst w0 h0.
  destruct (new_size_inv wd ht w' h' Hns) as (ratio & Hsw & Hsh).
  split; [exact Hbw|]. split; [exact Hbh|].
  split; [|split].
  - destruct (Z.eq_dec wd 0) as [->|Hne];
      [rewrite (scale_zero_inv ratio w' Hsw); lia | nia].
  - destruct (Z.eq_dec ht 0) as [->|Hne];
      [rewrite (scale_zero_inv ratio h' Hsh); lia | nia].
  - intros ->. congruence.
Qed.

(** X13.  The resize only ever shrinks: for an oversized image, no side
    of the requested size is negative or exceeds the side it comes from,
    and every side that is not zero becomes strictly smaller. *)
Theorem X13_resize_only_shrinks (wd ht : Z) :
  0 <= wd -> 0 <= ht -> 2048 < Z.max wd ht < 2 ^ 31 ->
  exists w' h',
    new_size (wd, ht) = Ok (w', h') /\
    0 <= w' <= wd /\ 0 <= h' <= ht /\
    (0 < wd -> w' < wd) /\ (0 < ht -> h' < ht).
Proof.
  intros Hwd Hht Hm.
  destruct (new_size_bounds wd ht Hwd Hht Hm) as (w' & h' & Hns & _).
  destruct (new_size_sides wd ht w' h' Hwd Hht Hm Hns)
    as (Hbw & Hbh & Hw0 & Hh0 & _).
  exists w', h'. split; [exact Hns|].
  repeat split; try assumption; try nia.
Qed.

Lemma X13_resize_only_shrinks_witness :
  exists w' h',
    new_size (4000, 3000) = Ok (w', h') /\
    0 <= w' <= 4000 /\ 0 <= h' <= 3000 /\
    (0 < 4000 -> w' < 4000) /\ (0 < 3000 -> h' < 3000).
Proof.
  apply (X13_resize_only_shrinks 4000 3000); simpl; lia.
Defined.

(** X14.  The resize keeps the orientation: the longer side of an
    oversized image stays the longer one, and a square image stays
    square. *)
Theorem X14_resize_keeps_orientation (wd ht : Z) :
  0 <= wd -> 0 <= ht -> 2048 < Z.max wd ht < 2 ^ 31 ->
  exists w' h',
    new_size (wd, ht) = Ok (w', h') /\
    (ht <= wd -> h' <= w') /\ (wd <= ht -> w' <= h') /\ (wd = ht -> w' = h').
Proof.
  intros Hwd Hht Hm.
  destruct (new_size_bounds wd ht Hwd Hht Hm) as (w' & h' & Hns & _).
  destruct (new_size_sides wd ht w' h' Hwd Hht Hm Hns)
    as (Hbw & Hbh & Hw0 & Hh0 & Heq).
  exists w', h'. split; [exact Hns|].
  split; [|split; [|exact Heq]].
  - intros Hle. destruct (Z.eq_dec wd ht) as [E|Hne]; [rewrite (Heq E); lia|].
    replace (Z.max wd ht) with wd in * by lia. nia.
  - intros Hle. destruct (Z.eq_dec wd ht) as [E|Hne]; [rewrite (Heq E); lia|].
    replace (Z.max wd ht) with ht in * by lia. nia.
Qed.

Lemma X14_resize_keeps_orientation_witness :
  exists w' h',
    new_size (3000, 4000) = Ok (w', h') /\
    (4000 <= 3000 -> h' <= w') /\ (3000 <= 4000 -> w' <= h') /\
    (3000 = 4000 -> w' = h').
Proof.
  apply (X14_resize_keeps_orientation 3000 4000); simpl; lia.
Defined.

(** X15.  A very thin oversized image loses its short side: a side
    shorter than 1/2048 of the longer one is resized to 0 px, and a side of
    at least 1/1024 of the longer one keeps at least 1 px. *)
Theorem X15_thin_side_collapses (wd ht : Z) :
  0 <= wd -> 0 <= ht -> 2048 < Z.max wd ht < 2 ^ 31 ->
  exists w' h',
    new_size (wd, ht) = Ok (w', h') /\
    (2048 * wd < Z.max wd ht -> w' = 0) /\
    (2048 * ht < Z.max wd ht -> h' = 0) /\
    (Z.max wd ht <= 1024 * wd -> 1 <= w') /\
    (Z.max wd ht <= 1024 * ht -> 1 <= h').
Proof.
  intros Hwd Hht Hm.
  destruct (new_size_bounds wd ht Hwd Hht Hm) as (w' & h' & Hns & _).
  destruct (new_size_sides wd ht w' h' Hwd Hht Hm Hns)
    as (Hbw & Hbh & Hw0 & Hh0 & _).
  exists w', h'. split; [exact Hns|].
  repeat split; intros; nia.
Qed.

Lemma X15_thin_side_collapses_witness :
  exists w' h',
    new_size (1, 3000) = Ok (w', h') /\
    (2048 * 1 < Z.max 1 3000 -> w' = 0) /\
    (2048 * 3000 < Z.max 1 3000 -> h' = 0) /\
    (Z.max 1 3000 <= 1024 * 1 -> 1 <= w') /\
    (Z.max 1 3000 <= 1024 * 3000 -> 1 <= h').
Proof.
  apply (X15_thin_side_collapses 1 3000); simpl; lia.
Defined.

Example new_size_1_3000 : new_size (1, 3000) = Ok (0, 2048).
Proof. vm_compute. reflexivity. Qed.

(** ** The process environment *)









(** ** Base64 *)

Lemma byte_groups_ind (P : list Byte.byte -> Prop) :
  P [] -> (forall a, P [a]) -> (forall a b, P [a; b]) ->
  (forall a b c l, P l -> P (a :: b :: c :: l)) ->
  forall l, P l.
Proof.
  intros H0 H1 H2 H3.
  assert (H : forall l, P l /\ (forall a, P (a :: l)) /\ (forall a b, P (a :: b :: l))).
  { induction l as [|x l (IH0 & IH1 & IH2)].
    - auto.
    - split; [apply IH1|]. split; [intros a; apply IH2|].
      intros a b. apply H3. exact IH0. }
  intros l. apply H.
Qed.

Lemma b64encode_step (a b c : Byte.byte) (l : list Byte.byte) :
  b64encode (a :: b :: c :: l) =
  String (b64_char (Byte.to_N a / 4))
    (String (b64_char ((Byte.to_N a mod 4) * 16 + Byte.to_N b / 16))
       (String (b64_char ((Byte.to_N b mod 16) * 4 + Byte.to_N c / 64))
          (String (b64_char (Byte.to_N c mod 64)) (b64encode l)))).
Proof. reflexivity. Qed.

(** X19.  The base64 text of [n] bytes has four characters for every
    three bytes, the last group padded: [4 * ceil (n / 3)] characters. *)
Theorem X19_b64encode_length (l : list Byte.byte) :
  String.length (b64encode l) = (4 * ((List.length l + 2) / 3))%nat.
Proof.
  induction l as [|a|a b|a b c l IH] using byte_groups_ind;
    try reflexivity.
  rewrite b64encode_step. cbn [String.length List.length]. rewrite IH.
  replace (S (S (S (List.length l))) + 2)%nat
    with ((List.length l + 2) + 1 * 3)%nat by lia.
  rewrite Nat.div_add by lia. lia.
Qed.

Lemma all_below_spec (k : nat) (f : N -> bool) :
  all_below k f = true -> forall n, (n < N.of_nat k)%N -> f n = true.
Proof.
  unfold all_below. intros H n Hn.
  rewrite forallb_forall in H. apply H.
  apply in_map_iff. exists (N.to_nat n). split; [apply N2Nat.id|].
  apply in_seq. lia.
Qed.

Lemma b64_index_char (n : N) : (n < 64)%N -> b64_index (b64_char n) = Some n.
Proof.
  intros Hn.
  assert (H : all_below 64
                (fun n => match b64_index (b64_char n) with
                          | Some m => N.eqb m n
                          | None => false
                          end) = true) by (vm_compute; reflexivity).
  pose proof (all_below_spec 64 _ H n Hn) as Hc. cbv beta in Hc.
  destruct (b64_index (b64_char n)) as [m|]; [|discriminate Hc].
  apply N.eqb_eq in Hc. congruence.
Qed.

Lemma b64_char_not_pad (n : N) : (n < 64)%N -> Ascii.eqb (b64_char n) "=" = false.
Proof.
  intros Hn.
  assert (H : all_below 64 (fun n => negb (Ascii.eqb (b64_char n) "=")) = true)
    by (vm_compute; reflexivity).
  pose proof (all_below_spec 64 _ H n Hn) as Hc. cbv beta in Hc.
  destruct (Ascii.eqb (b64_char n) "="); [discriminate Hc|reflexivity].
Qed.

(** The sextets of a group of bytes, and back. *)
Lemma sextet_facts (x y : N) :
  (x < 256)%N -> (y < 256)%N ->
  ((x / 4) * 4 + ((x mod 4) * 16 + y / 16) / 16 = x /\
   ((x mod 4) * 16 + y / 16) mod 16 = y / 16 /\
   ((x mod 16) * 4 + y / 64) / 4 = x mod 16 /\
   ((x mod 16) * 4 + y / 64) mod 4 = y / 64 /\
   (x / 16) * 16 + x mod 16 = x /\
   (x / 64) * 64 + x mod 64 = x /\
   ((x mod 16) * 4) / 4 = x mod 16 /\
   (x / 4) * 4 + ((x mod 4) * 16) / 16 = x)%N.
Proof.
  intros Hx Hy.
  assert (H : all_below 256 (fun x => all_below 256 (fun y =>
                N.eqb ((x / 4) * 4 + ((x mod 4) * 16 + y / 16) / 16) x
                && N.eqb (((x mod 4) * 16 + y / 16) mod 16) (y / 16)
                && N.eqb (((x mod 16) * 4 + y / 64) / 4) (x mod 16)
                && N.eqb (((x mod 16) * 4 + y / 64) mod 4) (y / 64)
                && N.eqb ((x / 16) * 16 + x mod 16) x
                && N.eqb ((x / 64) * 64 + x mod 64) x
                && N.eqb (((x mod 16) * 4) / 4) (x mod 16)
                && N.eqb ((x / 4) * 4 + ((x mod 4) * 16) / 16) x))%N
              = true) by (vm_compute; reflexivity).
  pose proof (all_below_spec 256 _ H x Hx) as Hxy. cbv beta in Hxy.
  pose proof (all_below_spec 256 _ Hxy y Hy) as Ha. cbv beta in Ha.
  repeat (apply andb_true_iff in Ha; destruct Ha as [Ha ?]).
  repeat match goal with H : N.eqb _ _ = true |- _ => apply N.eqb_eq in H end.
  repeat split; assumption.
Qed.

Lemma sextet_bounds (x y : N) :
  (x < 256)%N -> (y < 256)%N ->
  (x / 4 < 64 /\ (x mod 4) * 16 + y / 16 < 64 /\
   (x mod 16) * 4 + y / 64 < 64 /\ x mod 64 < 64 /\
   (x mod 4) * 16 < 64 /\ (x mod 16) * 4 < 64)%N.
Proof.
  intros Hx Hy.
  assert (H : all_below 256 (fun x => all_below 256 (fun y =>
                N.ltb (x / 4) 64
                && N.ltb ((x mod 4) * 16 + y / 16) 64
                && N.ltb ((x mod 16) * 4 + y / 64) 64
                && N.ltb (x mod 64) 64
                && N.ltb ((x mod 4) * 16) 64
                && N.ltb ((x mod 16) * 4) 64))%N
              = true) by (vm_compute; reflexivity).
  pose proof (all_below_spec 256 _ H x Hx) as Hxy. cbv beta in Hxy.
  pose proof (all_below_spec 256 _ Hxy y Hy) as Ha. cbv beta in Ha.
  repeat (apply andb_true_iff in Ha; destruct Ha as [Ha ?]).
  repeat match goal with H : N.ltb _ _ = true |- _ => apply N.ltb_lt in H end.
  repeat split; assumption.
Qed.

Lemma byte_below_256 (a : Byte.byte) : (Byte.to_N a < 256)%N.
Proof. pose proof (Byte.to_N_bounded a). lia. Qed.

Lemma b64decode_encode (l : list Byte.byte) : b64decode (b64encode l) = Some l.
Proof.
  induction l as [|a|a b|a b c l IH] using byte_groups_ind.
  - reflexivity.
  - pose proof (byte_below_256 a) as Hx.
    destruct (sextet_facts _ _ Hx Hx) as (_ & _ & _ & _ & _ & _ & _ & F8).
    destruct (sextet_bounds _ _ Hx Hx) as (B1 & _ & _ & _ & B5 & _).
    cbn [b64encode b64decode].
    rewrite (b64_index_char _ B1), (b64_index_char _ B5).
    change (Ascii.eqb "=" "=") with true. cbv iota.
    unfold bytes_of. cbn [fold_right].
    rewrite F8, Byte.of_to_N. reflexivity.
  - pose proof (byte_below_256 a) as Hx. pose proof (byte_below_256 b) as Hy.
    destruct (sextet_facts _ _ Hx Hy) as (F1 & F2 & _).
    destruct (sextet_facts _ _ Hy Hy) as (_ & _ & _ & _ & F5 & _ & F7 & _).
    destruct (sextet_bounds _ _ Hx Hy) as (B1 & B2 & _).
    destruct (sextet_bounds _ _ Hy Hy) as (_ & _ & _ & _ & _ & B6).
    cbn [b64encode b64decode].
    rewrite (b64_index_char _ B1), (b64_index_char _ B2).
    rewrite (b64_char_not_pad _ B6), (b64_index_char _ B6).
    change (Ascii.eqb "=" "=") with true. cbv iota.
    unfold bytes_of. cbn [fold_right].
    rewrite F1, F2, F7, F5, !Byte.of_to_N. reflexivity.
  - pose proof (byte_below_256 a) as Hx. pose proof (byte_below_256 b) as Hy.
    pose proof (byte_below_256 c) as Hz.
    destruct (sextet_facts _ _ Hx Hy) as (F1 & F2 & _).
    destruct (sextet_facts _ _ Hy Hz) as (_ & _ & F3 & F4 & F5 & _).
    destruct (sextet_facts _ _ Hz Hz) as (_ & _ & _ & _ & _ & F6 & _).
    destruct (sextet_bounds _ _ Hx Hy) as (B1 & B2 & _).
    destruct (sextet_bounds _ _ Hy Hz) as (_ & _ & B3 & _).
    destruct (sextet_bounds _ _ Hz Hz) as (_ & _ & _ & B4 & _).
    rewrite b64encode_step. cbn [b64decode].
    rewrite (b64_index_char _ B1), (b64_index_char _ B2).
    rewrite (b64_char_not_pad _ B3), (b64_index_char _ B3).
    rewrite (b64_char_not_pad _ B4), (b64_index_char _ B4).
    rewrite IH.
    unfold bytes_of. cbn [fold_right].
    rewrite F1, F2, F3, F4, F5, F6, !Byte.of_to_N. reflexivity.
Qed.

(** X20.  The base64 step loses nothing: two byte strings with the same
    base64 text are the same byte string. *)
Theorem X20_b64encode_injective (l1 l2 : list Byte.byte) :
  b64encode l1 = b64encode l2 -> l1 = l2.
Proof.
  intros H. pose proof (b64decode_encode l1) as H1.
  rewrite H, b64decode_encode in H1. congruence.
Qed.

Lemma X20_b64encode_injective_witness : Demo.pixels = [Byte.x4d; Byte.x61; Byte.x6e].
Proof. apply (X20_b64encode_injective Demo.pixels [Byte.x4d; Byte.x61; Byte.x6e]). reflexivity. Defined.

(** ** More on the preprocessor and on the result *)

(** X21.  An image that needs neither conversion nor resizing is handed
    to the JPEG encoder exactly as it was opened: for a mode other than
    RGBA and P and a longer side of at most 2048 px, the only effects of
    [_encode_image] are the open and the encoding of that very image. *)
Theorem X21_untouched_image_is_encoded_as_opened
        (w : World) (p : string) (img : Image) :
  Image_open w p = Ok img ->
  string_in (mode img) ["RGBA"; "P"] = false ->
  Z.max (fst (size img)) (snd (size img)) <= 2048 ->
  trace_of (_encode_image p w) = [EvImageOpen p; EvSave img "JPEG" 85].
Proof.
  intros Hopen Hmode Hsmall.
  unfold _encode_image, try_except, encode_image_body, bind, perform, ret,
    raise, trace_of.
  rewrite Hopen, Hmode.
  replace (Z.ltb max_size (Z.max (fst (size img)) (snd (size img)))) with false
    by (symmetry; apply Z.ltb_ge; unfold max_size; lia).
  destruct (Image_save w img "JPEG" 85); reflexivity.
Qed.

Lemma X21_untouched_image_is_encoded_as_opened_witness :
  trace_of (_encode_image "plate.jpg"
              (Demo.world (Ok (Demo.photo "L" (2048, 100))) None (Ok Demo.answer)))
  = [EvImageOpen "plate.jpg"; EvSave (Demo.photo "L" (2048, 100)) "JPEG" 85].
Proof.
  apply (X21_untouched_image_is_encoded_as_opened
           (Demo.world (Ok (Demo.photo "L" (2048, 100))) None (Ok Demo.answer))
           "plate.jpg" (Demo.photo "L" (2048, 100)) eq_refl eq_refl).
  simpl. lia.
Defined.

(** X22.  The resize comes after the conversion: the image a resize is
    asked for has the size of the opened image and its mode after the
    conversion, RGB when the opened image was RGBA or P, and the filter is
    LANCZOS. *)
Theorem X22_resize_follows_conversion
        (w : World) (p : string) (img img1 : Image) (sz : Z * Z)
        (f : Resampling) :
  Image_open w p = Ok img ->
  In (EvResize img1 sz f) (trace_of (_encode_image p w)) ->
  size img1 = size img /\ f = LANCZOS /\
  mode img1 = (if string_in (mode img) ["RGBA"; "P"] then "RGB" else mode img) /\
  max_size < Z.max (fst (size img)) (snd (size img)).
Proof.
  intros Hopen Hin.
  pose proof (encode_effects w p img Hopen _ Hin) as Heff.
  inversion Heff as [| |img1' sz' Hmode Hsz Hbig Hns|]; subst.
  unfold mode_after_convert in Hmode. auto.
Qed.

Lemma X22_resize_follows_conversion_witness :
  size (mkImage "RGB" (3000, 1000) Demo.pixels) = (3000, 1000) /\
  LANCZOS = LANCZOS /\
  mode (mkImage "RGB" (3000, 1000) Demo.pixels) = "RGB" /\
  max_size < Z.max 3000 1000.
Proof.
  apply (X22_resize_follows_conversion
           (Demo.world (Ok (Demo.photo "RGBA" (3000, 1000))) None (Ok Demo.answer))
           "plate.jpg" (Demo.photo "RGBA" (3000, 1000))
           (mkImage "RGB" (3000, 1000) Demo.pixels) (2048, 682) LANCZOS eq_refl).
  vm_compute. right. right. left. reflexivity.
Defined.

(** X23.  Unless a response of the model was received, the text [_run]
    returns begins with "Error". *)
Theorem X23_failures_begin_with_Error
        (w : World) (p : string) (prompt : option string) :
  occurrences is_received (trace_of (_run p prompt w)) = 0%nat ->
  exists s, outcome (_run p prompt w) = Ok s /\ starts_with "Error" s = true.
Proof.
  by_run_case w p prompt; intros Hrec;
    try (eexists; split; [reflexivity|];
         first [ reflexivity
               | unfold handler_text;
                 match goal with
                 | |- context [exn_cls ?e] => destruct (exn_cls e); reflexivity
                 end ]).
  exfalso. revert Hrec.
  unfold run_prologue, run_request_effects.
  repeat rewrite ?occurrences_app, ?occurrences_cons.
  cbn [is_received]. lia.
Qed.

Lemma X23_failures_begin_with_Error_witness :
  exists s,
    outcome (_run "plate.jpg" None
               (Demo.world (Ok (Demo.photo "RGB" (640, 480))) (Some "sk-test")
                  (Raise (mkExn RateLimitError "Error code: 429")))) = Ok s /\
    starts_with "Error" s = true.
Proof.
  apply (X23_failures_begin_with_Error
           (Demo.world (Ok (Demo.photo "RGB" (640, 480))) (Some "sk-test")
              (Raise (mkExn RateLimitError "Error code: 429")))
           "plate.jpg" None).
  reflexivity.
Defined.
